(** * sentinelsat_utils.query: retrying and aggregating data-hub queries

    A shallow embedding of [src/sentinelsat_utils/query.py].  Python
    dictionaries passed by reference live in a heap of dict objects, the
    external collaborators (the data hub behind [api.query], the date
    parser, the file system) are an interface, and every observable effect
    (a query, a ten-second sleep, a log record, a file-system call) is
    recorded as an event of the run. *)

From Stdlib Require Import ZArith Lia Ascii String.
From stdpp Require Import gmap strings list pretty.

Open Scope Z_scope.

(** ** Exceptions *)

(** The exception classes the module can meet.  [SentinelAPIError] stands
    for any instance of that class or of a subclass, which is what the
    [except SentinelAPIError] clause catches. *)
Inductive exn :=
| SentinelAPIError (msg : string)
| ValueError (msg : string)
| TypeError (msg : string)
| OverflowError (msg : string)
| KeyError (key : string)
| OSError (msg : string)
| SystemError (msg : string)
| OtherError (cls msg : string).

Definition is_SentinelAPIError (e : exn) : bool :=
  match e with SentinelAPIError _ => true | _ => false end.

(** [str(err)], as the [%s] of a log record prints it. *)
Definition str_exn (e : exn) : string :=
  match e with
  | SentinelAPIError m | ValueError m | TypeError m | OverflowError m
  | OSError m | SystemError m | OtherError _ m => m
  | KeyError k => k
  end.

Inductive result (A : Type) :=
| Ok (a : A)
| Raise (e : exn).
Arguments Ok {A} a.
Arguments Raise {A} e.

(** ** datetime *)

(** The calendar fields of a [datetime.datetime]. *)
Record naive := Naive {
  year : Z; month : Z; day : Z;
  hour : Z; minute : Z; second : Z; microsecond : Z
}.

(** A [datetime.datetime]: naive when [tzinfo] is [None], aware (with its
    UTC offset in minutes) otherwise. *)
Record datetime := DateTime { fields : naive; tzinfo : option Z }.

(** [datetime.datetime(y, m, d)]. *)
Definition datetime_ymd (y m d : Z) : naive := Naive y m d 0 0 0 0.

Definition naive_key (a : naive) : list Z :=
  [year a; month a; day a; hour a; minute a; second a; microsecond a].

Fixpoint lex_ltb (a b : list Z) : bool :=
  match a, b with
  | x :: a', y :: b' => (x <? y) || ((x =? y) && lex_ltb a' b')
  | [], _ :: _ => true
  | _, [] => false
  end.

Definition naive_ltb (a b : naive) : bool := lex_ltb (naive_key a) (naive_key b).

(** [a < datetime.datetime(y, m, d)]: the right operand is a naive
    constant at both places of the module; Python refuses to order an
    aware datetime against a naive one. *)
Definition datetime_lt (a : datetime) (b : naive) : result bool :=
  match tzinfo a with
  | None => Ok (naive_ltb (fields a) b)
  | Some _ => Raise (TypeError "can't compare offset-naive and offset-aware datetimes")
  end.

Definition is_leap (y : Z) : bool :=
  (y mod 4 =? 0) && (negb (y mod 100 =? 0) || (y mod 400 =? 0)).

Definition days_in_month (y m : Z) : Z :=
  if m =? 2 then (if is_leap y then 29 else 28)
  else if (m =? 4) || (m =? 6) || (m =? 9) || (m =? 11) then 30
  else 31.

Definition MAXYEAR : Z := 9999.

(** [a + datetime.timedelta(days=1)]: the next calendar day at the same
    time of day and with the same [tzinfo]; past 9999-12-31 the sum is not
    a datetime and Python raises [OverflowError]. *)
Definition add_one_day (a : datetime) : result datetime :=
  let f := fields a in
  let rebuild y m d :=
    Ok (DateTime (Naive y m d (hour f) (minute f) (second f) (microsecond f))
                 (tzinfo a)) in
  if day f <? days_in_month (year f) (month f) then rebuild (year f) (month f) (day f + 1)
  else if month f <? 12 then rebuild (year f) (month f + 1) 1
  else if year f <? MAXYEAR then rebuild (year f + 1) 1 1
  else Raise (OverflowError "date value out of range").

(** ** Values, dictionaries, ordered dictionaries *)

Inductive pyval :=
| VNone
| VInt (n : Z)
| VStr (s : string)
| VDateTime (d : datetime)
| VDates (start_date end_date : datetime).

(** Keyword arguments of [api.query]: a dict from parameter name to value. *)
Abbreviation kwargs := (gmap string pyval).

(** The metadata record of one product, each field kept as its text; the
    one field the module reads is ['path'], the path name of the
    downloaded file. *)
Abbreviation metadata := (gmap string string).

(** An insertion-ordered dictionary ([OrderedDict], or the dict returned by
    [api.query]): its items in insertion order. *)
Definition odict (V : Type) := list (string * V).

Definition od_keys {V} (d : odict V) : list string := d.*1.

Fixpoint od_lookup {V} (k : string) (d : odict V) : option V :=
  match d with
  | [] => None
  | (k', v) :: d' => if String.eqb k k' then Some v else od_lookup k d'
  end.

(** [d[k] = v]: an existing key keeps its position and takes the new
    value, a new key goes to the end. *)
Fixpoint od_set {V} (k : string) (v : V) (d : odict V) : odict V :=
  match d with
  | [] => [(k, v)]
  | (k', v') :: d' =>
      if String.eqb k k' then (k', v) :: d' else (k', v') :: od_set k v d'
  end.

(** [d.update(other)]: assigns the items of [other] in their order. *)
Definition od_update {V} (d other : odict V) : odict V :=
  fold_left (fun acc kv => od_set kv.1 kv.2 acc) other d.

Abbreviation product_map := (odict metadata).

(** ** The external collaborators *)

(** What the module calls but does not own: the data hub behind
    [api.query] (a state machine: a call may change the hub and either
    returns the products found or raises), [dateutil.parser.parse], and the
    two file-system calls of [delete_empty], both on a path name.
    [os.remove], called on a path name [os.path.getsize] has just
    measured, fails with an [OSError] only, given by its message. *)
Class Externals := {
  Hub : Type;
  api_query : Hub -> kwargs -> Hub * result product_map;
  dateutil_parse : string -> result datetime;
  Disk : Type;
  os_path_getsize : Disk -> string -> result Z;
  os_remove : Disk -> string -> Disk * option string;
}.

(** ** Observable effects *)

Inductive level := INFO | WARNING.

Inductive event :=
| EvQuery (kw : kwargs) (r : result product_map)
| EvSleep (seconds : Z)
| EvLog (lvl : level) (fmt : string) (args : list pyval)
| EvGetsize (path : string) (r : result Z)
| EvRemove (path : string) (failure : option string).

Definition is_query (e : event) : bool :=
  match e with EvQuery _ _ => true | _ => false end.

Definition is_sleep (e : event) : bool :=
  match e with EvSleep _ => true | _ => false end.

Definition query_kwargs_of (e : event) : option kwargs :=
  match e with EvQuery kw _ => Some kw | _ => None end.

Definition query_result_of (e : event) : option (result product_map) :=
  match e with EvQuery _ r => Some r | _ => None end.

(** The calls of [api.query] in a run, the arguments and the outcomes of
    those calls, and the sleeps of the run. *)
Definition queries (evs : list event) : list event := List.filter is_query evs.
Definition queried (evs : list event) : list kwargs := omap query_kwargs_of evs.
Definition answers (evs : list event) : list (result product_map) :=
  omap query_result_of evs.
Definition sleeps (evs : list event) : list event := List.filter is_sleep evs.

(** Paths [os.remove] was called on, paths whose size was read as zero,
    and the warnings logged. *)
Definition removals (evs : list event) : list string :=
  omap (fun e => match e with EvRemove p _ => Some p | _ => None end) evs.
Definition failed_removals (evs : list event) : list string :=
  omap (fun e => match e with EvRemove p (Some _) => Some p | _ => None end) evs.
Definition seen_empty (evs : list event) : list string :=
  omap (fun e => match e with EvGetsize p (Ok 0) => Some p | _ => None end) evs.
Definition inspections (evs : list event) : list string :=
  omap (fun e => match e with EvGetsize p _ => Some p | _ => None end) evs.
Definition warnings (evs : list event) : list (list pyval) :=
  omap (fun e => match e with EvLog WARNING _ args => Some args | _ => None end) evs.

(** ** Runs *)

Abbreviation loc := nat.

Section Runtime.
Context `{Ext : Externals}.

(** The state a call runs in: the dict objects reachable by reference,
    the hub and the file system. *)
Record world := World {
  heap : gmap loc kwargs;
  hub : Hub;
  disk : Disk
}.

(** What a call did: how it ended, the state it left and the events it
    emitted, in order. *)
Record run (A : Type) := Run {
  outcome : result A;
  final : world;
  emitted : list event
}.
Arguments Run {A} outcome final emitted.
Arguments outcome {A} r.
Arguments final {A} r.
Arguments emitted {A} r.

Definition M (A : Type) : Type := world -> run A.

Definition ret {A} (a : A) : M A := fun w => Run (Ok a) w [].

Definition raise {A} (e : exn) : M A := fun w => Run (Raise e) w [].

Definition bind {A B} (m : M A) (f : A -> M B) : M B := fun w =>
  let r := m w in
  match outcome r with
  | Ok a => let r' := f a (final r) in
            Run (outcome r') (final r') (emitted r ++ emitted r')
  | Raise e => Run (Raise e) (final r) (emitted r)
  end.

(** [try: m  except <class> as err: handler err]: an exception outside the
    class passes through, one raised by the handler is not caught again. *)
Definition try_except {A} (m : M A) (caught : exn -> bool) (handler : exn -> M A)
  : M A := fun w =>
  let r := m w in
  match outcome r with
  | Ok a => r
  | Raise e =>
      if caught e then
        let r' := handler e (final r) in
        Run (outcome r') (final r') (emitted r ++ emitted r')
      else r
  end.

Definition lift {A} (r : result A) : M A :=
  match r with Ok a => ret a | Raise e => raise e end.

Definition emit (e : event) : M unit := fun w => Run (Ok tt) w [e].

Definition logger_info (fmt : string) (args : list pyval) : M unit :=
  emit (EvLog INFO fmt args).

Definition logger_warn (fmt : string) (args : list pyval) : M unit :=
  emit (EvLog WARNING fmt args).

End Runtime.

Arguments Run {Ext A} outcome final emitted.
Arguments outcome {Ext A} r.
Arguments final {Ext A} r.
Arguments emitted {Ext A} r.

Declare Scope py_scope.
Delimit Scope py_scope with py.
Notation "x <- m ;; k" := (bind m (fun x => k))
  (at level 100, m at next level, right associativity) : py_scope.
Notation "m ;;; k" := (bind m (fun _ => k))
  (at level 100, right associativity) : py_scope.

Open Scope py_scope.

(** ** The module *)

Section Source.
Context `{Ext : Externals}.

(** *** Dict objects *)

(** The dict a reference points to.  Python has no dangling reference;
    the error stands for a reference that was never allocated. *)
Definition deref (l : loc) : M kwargs := fun w =>
  match heap w !! l with
  | Some d => Run (Ok d) w []
  | None => Run (Raise (SystemError "dangling reference")) w []
  end.

(** [d.copy()]: a new dict object with the items of [d]. *)
Definition dict_copy (l : loc) : M loc :=
  d <- deref l ;;
  fun w =>
    let l' := fresh (dom (heap w)) in
    Run (Ok l') (World (<[l' := d]> (heap w)) (hub w) (disk w)) [].

(** [d[k] = v], in place. *)
Definition dict_setitem (l : loc) (k : string) (v : pyval) : M unit :=
  d <- deref l ;;
  fun w => Run (Ok tt) (World (<[l := <[k := v]> d]> (heap w)) (hub w) (disk w)) [].

(** [api.query] called with the items of [query_kwargs] as keyword
    arguments: the dict is read when the call is made. *)
Definition api_query_call (query_kwargs : loc) : M product_map :=
  kw <- deref query_kwargs ;;
  fun w =>
    let hr := api_query (hub w) kw in
    Run hr.2 (World (heap w) hr.1 (disk w)) [EvQuery kw hr.2].

(** *** loop_query (lines 14-43) *)

(** Truth value of [timeout_minutes]: [None] and [0] are false. *)
Definition truthy (timeout_minutes : option Z) : bool :=
  match timeout_minutes with
  | None => false
  | Some t => negb (t =? 0)
  end.

(** [for t in trange(n): time.sleep(10)]. *)
Fixpoint sleep_loop (n : nat) : M unit :=
  match n with
  | O => ret tt
  | S n' => emit (EvSleep 10) ;;; sleep_loop n'
  end.

(** Lines 42-43, after the loop: no [return] was reached. *)
Definition loop_query_end (err_reraise : option exn) : M (option product_map) :=
  match err_reraise with
  | Some err => raise err
  | None => ret None
  end.

(** The [for _ in range(max_retries)] loop with [n] iterations left.  A
    call that returns no [return] value gives Python's [None]. *)
Fixpoint loop_query_from (n : nat) (query_kwargs : loc)
    (timeout_minutes : option Z) (err_reraise : option exn) : M (option product_map) :=
  match n with
  | O => loop_query_end err_reraise
  | S n' =>
      try_except
        (pp <- api_query_call query_kwargs ;; ret (Some pp))
        is_SentinelAPIError
        (fun err =>
           if negb (truthy timeout_minutes) then loop_query_end (Some err)
           else
             logger_info "An exception occurred contacting DHUS (%s). Waiting %d minutes."
               [VStr (str_exn err); from_option VInt VNone timeout_minutes] ;;;
             sleep_loop (Z.to_nat (default 0 timeout_minutes * 6)) ;;;
             loop_query_from n' query_kwargs timeout_minutes (Some err))
  end.

Definition loop_query (query_kwargs : loc) (max_retries : Z)
    (timeout_minutes : option Z) : M (option product_map) :=
  loop_query_from (Z.to_nat max_retries) query_kwargs timeout_minutes None.

(** [loop_kwargs]: the keyword arguments an aggregator forwards to
    [loop_query]; an absent one takes the default of the signature. *)
Record loop_kwargs := LoopKwargs {
  lk_max_retries : option Z;
  lk_timeout_minutes : option (option Z)
}.

Definition loop_query_with (query_kwargs : loc) (lk : loop_kwargs)
  : M (option product_map) :=
  loop_query query_kwargs (default 5 (lk_max_retries lk))
    (default (Some 5) (lk_timeout_minutes lk)).

(** *** The aggregators (lines 46-133) *)

(** [for x in xs: body], with the local variables the body assigns
    threaded through. *)
Fixpoint for_each {A S} (xs : list A) (body : S -> A -> M S) (s : S) : M S :=
  match xs with
  | [] => ret s
  | x :: xs' => s' <- body s x ;; for_each xs' body s'
  end.

(** [len(pp)]. *)
Definition len (pp : option product_map) : M Z :=
  match pp with
  | Some d => ret (Z.of_nat (length d))
  | None => raise (TypeError "object of type 'NoneType' has no len()")
  end.

(** [products.update(pp)]. *)
Definition products_update (products : product_map) (pp : option product_map)
  : M product_map :=
  match pp with
  | Some d => ret (od_update products d)
  | None => raise (TypeError "'NoneType' object is not iterable")
  end.

(** [kw['date'] = (start_date, end_date)], lines 67-69 and 102-104. *)
Definition set_date (kw : loc) (date : string) : M datetime :=
  start_date <- lift (dateutil_parse date) ;;
  end_date <- lift (add_one_day start_date) ;;
  dict_setitem kw "date" (VDates start_date end_date) ;;;
  ret start_date.

(** The error of lines 71-72. *)
Definition unsupported : exn :=
  ValueError "Search by tile works only for single-tile (past 11/2016) format.".

(** Lines 66-76: the parameters of one (tile, date) iteration. *)
Definition tile_date_kwargs (query_kwargs : loc) (tile date : string) : M loc :=
  kw <- dict_copy query_kwargs ;;
  start_date <- set_date kw date ;;
  early <- lift (datetime_lt start_date (datetime_ymd 2016 11 1)) ;;
  if (early : bool) then raise unsupported
  else
    glob <- lift (datetime_lt start_date (datetime_ymd 2017 3 31)) ;;
    (if (glob : bool) then dict_setitem kw "filename" (VStr ("*_T" +:+ tile +:+ "_*"))
     else dict_setitem kw "tileid" (VStr tile)) ;;;
    ret kw.

(** Lines 66-79: one iteration of the inner loop. *)
Definition query_tiles_dates_step (query_kwargs : loc) (lk : loop_kwargs)
    (tile : string) (products : product_map) (date : string) : M product_map :=
  kw <- tile_date_kwargs query_kwargs tile date ;;
  pp <- loop_query_with kw lk ;;
  n <- len pp ;;
  logger_info "   -- date %s (%d)" [VStr date; VInt n] ;;;
  products_update products pp.

(** Lines 62-80.  Iterating the keys of [tiles_dates] and reading
    [tiles_dates[tile]] visits the items of the dict in order. *)
Definition query_tiles_dates (tiles_dates : odict (list string))
    (query_kwargs : loc) (lk : loop_kwargs) : M product_map :=
  for_each tiles_dates
    (fun products td =>
       logger_info "-- tile %s" [VStr td.1] ;;;
       for_each td.2 (query_tiles_dates_step query_kwargs lk td.1) products)
    [].

(** Lines 101-107. *)
Definition query_dates_step (query_kwargs : loc) (lk : loop_kwargs)
    (products : product_map) (date : string) : M product_map :=
  kw <- dict_copy query_kwargs ;;
  set_date kw date ;;;
  pp <- loop_query_with kw lk ;;
  n <- len pp ;;
  logger_info "   -- date %s (%d)" [VStr date; VInt n] ;;;
  products_update products pp.

Definition query_dates (dates : list string) (query_kwargs : loc)
    (lk : loop_kwargs) : M product_map :=
  for_each dates (query_dates_step query_kwargs lk) [].

(** Lines 129-132. *)
Definition query_rel_orbit_numbers_step (query_kwargs : loc) (lk : loop_kwargs)
    (products : product_map) (ron : Z) : M product_map :=
  kw <- dict_copy query_kwargs ;;
  dict_setitem kw "relativeorbitnumber" (VStr (pretty ron)) ;;;
  pp <- loop_query_with kw lk ;;
  products_update products pp.

Definition query_rel_orbit_numbers (rel_orbit_numbers : list Z)
    (query_kwargs : loc) (lk : loop_kwargs) : M product_map :=
  for_each rel_orbit_numbers (query_rel_orbit_numbers_step query_kwargs lk) [].

(** *** delete_empty (lines 136-146) *)

Definition getsize (path : string) : M Z := fun w =>
  let r := os_path_getsize (disk w) path in
  Run r w [EvGetsize path r].

Definition remove (path : string) : M unit := fun w =>
  let df := os_remove (disk w) path in
  Run (match df.2 with None => Ok tt | Some msg => Raise (OSError msg) end)
      (World (heap w) (hub w) df.1) [EvRemove path df.2].

Definition is_OSError (e : exn) : bool :=
  match e with OSError _ => true | _ => false end.

(** [results[key]['path']]. *)
Definition getitem (d : metadata) (k : string) : M string :=
  match d !! k with
  | Some v => ret v
  | None => raise (KeyError k)
  end.

(** The body of the loop; iterating the keys of a dict and reading
    [results[key]] visits its items in order. *)
Definition delete_empty_step (_ : unit) (item : string * metadata) : M unit :=
  zipfile <- getitem item.2 "path" ;;
  size <- getsize zipfile ;;
  if size =? 0 then
    try_except (remove zipfile) is_OSError
      (fun _ =>
         logger_warn "Download produced empty file: '%s' that could not be deleted."
           [VStr zipfile])
  else ret tt.

Definition delete_empty (results : product_map) : M unit :=
  for_each results delete_empty_step tt.

End Source.

(** ** A scripted environment

    A concrete set of collaborators to run the module on: a hub that
    plays a script of answers, a parser of ISO calendar dates and a file
    system of sized files, some of them protected against removal. *)

Record script := Script {
  pending : list (result product_map);
  afterwards : result product_map
}.

(** Each call takes the next answer of the script; once the script is
    played the hub keeps giving [afterwards]. *)
Definition script_query (s : script) (kw : kwargs) : script * result product_map :=
  match pending s with
  | r :: rest => (Script rest (afterwards s), r)
  | [] => (s, afterwards s)
  end.

Definition digit_of (c : ascii) : option Z :=
  let n := Z.of_nat (nat_of_ascii c) in
  if (48 <=? n) && (n <=? 57) then Some (n - 48) else None.

Fixpoint number_of (acc : Z) (cs : list ascii) : option Z :=
  match cs with
  | [] => Some acc
  | c :: cs' =>
      match digit_of c with
      | Some d => number_of (10 * acc + d) cs'
      | None => None
      end
  end.

(** [YYYY-MM-DD], a day that exists in a year from 1000 to 9999: what
    [dateutil.parser.parse] reads as midnight of that day, naive. *)
Definition iso_calendar_date (s : string) : option naive :=
  match String.list_ascii_of_string s with
  | [y1; y2; y3; y4; "-"%char; m1; m2; "-"%char; d1; d2] =>
      match number_of 0 [y1; y2; y3; y4], number_of 0 [m1; m2], number_of 0 [d1; d2] with
      | Some y, Some m, Some d =>
          if (1000 <=? y) && (1 <=? m) && (m <=? 12) && (1 <=? d)
             && (d <=? days_in_month y m)
          then Some (datetime_ymd y m d) else None
      | _, _, _ => None
      end
  | _ => None
  end.

(** Any other string is refused here, which [dateutil] need not do. *)
Definition parse_iso (s : string) : result datetime :=
  match iso_calendar_date s with
  | Some d => Ok (DateTime d None)
  | None => Raise (ValueError ("Unknown string format: " +:+ s))
  end.

(** A file: its size and whether it may be removed. *)
Abbreviation files := (gmap string (Z * bool)).

Definition files_getsize (d : files) (path : string) : result Z :=
  match d !! path with
  | Some f => Ok f.1
  | None => Raise (OSError "No such file or directory")
  end.

Definition files_remove (d : files) (path : string) : files * option string :=
  match d !! path with
  | Some (_, true) => (delete path d, None)
  | Some (_, false) => (d, Some "Permission denied")
  | None => (d, Some "No such file or directory")
  end.

Definition scripted : Externals := {|
  Hub := script;
  api_query := script_query;
  dateutil_parse := parse_iso;
  Disk := files;
  os_path_getsize := files_getsize;
  os_remove := files_remove
|}.

(** The hub that is down: every call raises the recoverable error. *)
Definition hub_down : script := Script [] (Raise (SentinelAPIError "HTTP status 503")).

(** The hub that answers every call with the same products. *)
Definition hub_up (pp : product_map) : script := Script [] (Ok pp).

Definition base_params : kwargs :=
  {[ "platformname" := VStr "Sentinel-2" ]}.

(** A state with the caller's base parameters at reference 0. *)
Definition demo_world (h : script) (d : files) : @world scripted :=
  @World scripted {[ 0%nat := base_params ]} h d.

Definition meta (path : string) : metadata := {[ "path" := path ]}.

(** Base parameters that already name a tile. *)
Definition tiled_params : kwargs :=
  {[ "platformname" := VStr "Sentinel-2"; "tileid" := VStr "32UNA" ]}.

(** A recoverable error, a wait of one minute, then a syntax error of the
    query: the hub of a run whose second call is the last event. *)
Definition flaky_then_broken : script :=
  Script [Raise (SentinelAPIError "HTTP status 503"); Raise (ValueError "bad query")]
         (Ok []).

Definition no_loop_kwargs : loop_kwargs := LoopKwargs None None.

(** Three downloads: an empty file, a file with content, and an empty
    file that may not be removed. *)
Definition downloads : files :=
  {[ "empty.zip" := (0, true); "full.zip" := (10, true); "locked.zip" := (0, false) ]}.

Definition downloaded : product_map :=
  [("A", meta "empty.zip"); ("B", meta "full.zip"); ("C", meta "locked.zip")].

(** ** Vocabulary of the statements *)

(** The events of one wait of [loop_query]. *)
Definition waiting (err : exn) (timeout_minutes : option Z) : list event :=
  EvLog INFO "An exception occurred contacting DHUS (%s). Waiting %d minutes."
    [VStr (str_exn err); from_option VInt VNone timeout_minutes]
  :: replicate (Z.to_nat (default 0 timeout_minutes * 6)) (EvSleep 10).

(** An answer of the hub that is the recoverable server error. *)
Definition recoverable (r : result product_map) : Prop :=
  match r with
  | Raise e => is_SentinelAPIError e = true
  | Ok _ => False
  end.

(** The products of the calls of a run that succeeded, in order. *)
Definition successes (evs : list event) : list product_map :=
  omap (fun e => match e with EvQuery _ (Ok pp) => Some pp | _ => None end) evs.

(** The accumulator after merging the collections [pps], in order. *)
Definition merge_all {V} (acc : odict V) (pps : list (odict V)) : odict V :=
  fold_left od_update pps acc.

(** The keys of [ks] in the order of their first occurrence. *)
Fixpoint first_seen (ks : list string) : list string :=
  match ks with
  | [] => []
  | k :: ks' => k :: filter (fun k' => k' <> k) (first_seen ks')
  end.

(** The parameters of one iteration, from the items [d] of the caller's
    mapping: what [api.query] is to be called with. *)
Definition orbit_params (d : kwargs) (ron : Z) : kwargs :=
  <["relativeorbitnumber" := VStr (pretty ron)]> d.

Definition date_params (d : kwargs) (start_date end_date : datetime) : kwargs :=
  <["date" := VDates start_date end_date]> d.

Definition tile_params (d : kwargs) (tile : string)
    (start_date end_date : datetime) : kwargs :=
  if naive_ltb (fields start_date) (datetime_ymd 2017 3 31)
  then <["filename" := VStr ("*_T" +:+ tile +:+ "_*")]> (date_params d start_date end_date)
  else <["tileid" := VStr tile]> (date_params d start_date end_date).

(** What holds of the events of a run of [delete_empty]: [os.remove] was
    called on the files measured empty and on no other, and there is a
    warning for each removal that failed and no other. *)
Definition cleanup_events (evs : list event) : Prop :=
  removals evs = seen_empty evs /\
  warnings evs = (fun p => [VStr p]) <$> failed_removals evs.


(** What C5 says of the products [p] an aggregator returned, [pps] being
    the answers of its successful calls of [api.query], in order: [p] is
    their merge; its keys are the keys of the answers in the order in
    which they first came; a key at position [i] after the first [n]
    merges is at position [i] at the end; and the value of a key is the
    one of the last answer that has it. *)
Definition merged_in_order (pps : list product_map) (p : product_map) : Prop :=
  p = merge_all [] pps /\
  od_keys p = first_seen (concat (od_keys <$> pps)) /\
  (forall (n i : nat) (k : string),
      od_keys (merge_all [] (take n pps)) !! i = Some k -> od_keys p !! i = Some k) /\
  (forall k : string, od_lookup k p = od_lookup k (reverse (concat pps))).

Section Vocabulary.
Context `{Ext : Externals}.

(** A run of an aggregator that, when it returns, returns the merge of
    the answers it got, in insertion order. *)
Definition returns_merged (r : run product_map) : Prop :=
  match outcome r with
  | Ok p => merged_in_order (successes (emitted r)) p
  | Raise _ => True
  end.

(** The state [w] with the heap [h]. *)
Definition with_heap (w : world) (h : gmap loc kwargs) : world :=
  World h (hub w) (disk w).

(** The state after one call of [api.query]. *)
Definition answered (w : world) (kw : kwargs) : world :=
  World (heap w) (api_query (hub w) kw).1 (disk w).

(** From the state [h] on, the hub raises the recoverable error on every
    call, whatever the parameters. *)
Definition always_down (h : Hub) : Prop :=
  exists Inv : Hub -> Prop,
    Inv h /\
    forall h' kw, Inv h' -> recoverable (api_query h' kw).2 /\ Inv (api_query h' kw).1.

(** What C4 says of the parameters of one (tile, date) iteration: the dict
    the iteration builds has the filename glob and the tile id of the
    caller's mapping when the date is before 2017-03-31, the tile id and
    the filename of the caller's mapping otherwise. *)
Definition tile_filter_set (query_kwargs : loc) (d : kwargs) (tile date : string)
    (start_date : datetime) (w : world) : Prop :=
  let r : run loc := tile_date_kwargs query_kwargs tile date w in
  exists (kw : loc) (params : kwargs) (glob : bool),
    outcome r = Ok kw /\
    heap (final r) !! kw = Some params /\
    datetime_lt start_date (datetime_ymd 2017 3 31) = Ok glob /\
    if glob
    then params !! "filename" = Some (VStr ("*_T" +:+ tile +:+ "_*")) /\
         params !! "tileid" = d !! "tileid"
    else params !! "tileid" = Some (VStr tile) /\
         params !! "filename" = d !! "filename".

(** An iteration of an aggregator that leaves the caller's mapping [d] at
    [query_kwargs] as it is, calls [api.query] only with parameters [Q]
    allows for its item, and returns the accumulator merged with the
    products of its successful call. *)
Definition iteration_ok {X} (query_kwargs : loc) (d : kwargs)
    (Q : X -> kwargs -> Prop) (step : product_map -> X -> M product_map) : Prop :=
  forall acc x w,
    heap w !! query_kwargs = Some d ->
    let r : run product_map := step acc x w in
    heap (final r) !! query_kwargs = Some d /\
    Forall (Q x) (queried (emitted r)) /\
    forall p, outcome r = Ok p -> p = merge_all acc (successes (emitted r)).

(** How a run of [delete_empty] may end: every entry was inspected, or the
    run stopped with [KeyError] at an entry that has no ['path'], or with
    the error of a size that could not be read.  A removal that fails is
    in neither list of reasons. *)
Definition cleanup_ending (items : product_map) (r : run unit) : Prop :=
  (outcome r = Ok tt /\
   Some <$> inspections (emitted r) = (fun item => item.2 !! "path") <$> items) \/
  (exists e, outcome r = Raise e /\
             ((e = KeyError "path" /\
               exists item, item ∈ items /\ item.2 !! "path" = None) \/
              exists pre p, emitted r = pre ++ [EvGetsize p (Raise e)])).

End Vocabulary.

(** ** Vocabulary of the further properties *)

(** The seconds slept in a run. *)
Definition total_sleep (evs : list event) : Z :=
  foldr (fun e acc => match e with EvSleep s => s + acc | _ => acc end) 0 evs.

(** The events of an attempt of [loop_query] that raised the recoverable
    error [err], with the wait that follows it. *)
Definition failed_attempt (kw : kwargs) (timeout_minutes : option Z) (err : exn)
  : list event :=
  EvQuery kw (Raise err) :: waiting err timeout_minutes.

(** What [loop_query] gets from [loop_kwargs]. *)
Definition attempts (lk : loop_kwargs) : Z := default 5 (lk_max_retries lk).
Definition pause (lk : loop_kwargs) : option Z :=
  default (Some 5) (lk_timeout_minutes lk).

(** The (tile, date) pairs of [tiles_dates] in the order of the loops. *)
Definition tile_date_pairs (tiles_dates : odict (list string)) : list (string * string) :=
  tiles_dates ≫= (fun td => pair td.1 <$> td.2).

Section FurtherVocabulary.
Context `{Ext : Externals}.

(** From the state [h] on, the hub answers every call. *)
Definition always_up (h : Hub) : Prop :=
  exists Inv : Hub -> Prop,
    Inv h /\
    forall h' kw, Inv h' ->
      (exists pp, (api_query h' kw).2 = Ok pp) /\ Inv (api_query h' kw).1.

(** From the state [h] on, the hub raises the recoverable error on the
    next [k] calls with [kw] and answers the call after them with [pp]. *)
Fixpoint fails_then_answers (k : nat) (h : Hub) (kw : kwargs) (pp : product_map)
  : Prop :=
  match k with
  | O => (api_query h kw).2 = Ok pp
  | S k' => recoverable (api_query h kw).2 /\
            fails_then_answers k' (api_query h kw).1 kw pp
  end.

(** A date string the aggregators can use: it parses and has a next day. *)
Definition usable_date (date : string) (start_date end_date : datetime) : Prop :=
  dateutil_parse date = Ok start_date /\ add_one_day start_date = Ok end_date.

(** An iteration of an aggregator on an item that is [good], run against a
    hub that answers: it leaves the caller's mapping and a hub that answers,
    its events are those [P] gives for the item, and it returns the
    accumulator merged with the products it got. *)
Definition iteration_answered {X} (query_kwargs : loc) (d : kwargs)
    (good : X -> Prop) (P : X -> list event -> Prop)
    (step : product_map -> X -> M product_map) : Prop :=
  forall acc x w,
    good x ->
    heap w !! query_kwargs = Some d ->
    always_up (hub w) ->
    let r : run product_map := step acc x w in
    heap (final r) !! query_kwargs = Some d /\
    always_up (hub (final r)) /\
    P x (emitted r) /\
    outcome r = Ok (merge_all acc (successes (emitted r))).

(** The events of an iteration that was answered at once: the call, and
    for the aggregators by date the log record of the products found. *)
Definition answered_call (params : kwargs) (pp : product_map) : list event :=
  [EvQuery params (Ok pp)].

Definition answered_date (params : kwargs) (date : string) (pp : product_map)
  : list event :=
  [EvQuery params (Ok pp);
   EvLog INFO "   -- date %s (%d)" [VStr date; VInt (Z.of_nat (length pp))]].

End FurtherVocabulary.

(** A parser that also reads [YYYY-MM-DDT00:00:00Z], as midnight UTC of
    that day, aware. *)
Definition parse_iso_utc (s : string) : result datetime :=
  if Nat.eqb (String.length s) 20 && String.eqb (String.substring 10 10 s) "T00:00:00Z"
  then match iso_calendar_date (String.substring 0 10 s) with
       | Some d => Ok (DateTime d (Some 0))
       | None => Raise (ValueError ("Unknown string format: " +:+ s))
       end
  else parse_iso s.

Definition scripted_utc : Externals := {|
  Hub := script;
  api_query := script_query;
  dateutil_parse := parse_iso_utc;
  Disk := files;
  os_path_getsize := files_getsize;
  os_remove := files_remove
|}.

(** The hub of the specification's example: [{A: x}], then [{A: y, B: z}]. *)
Definition hub_two_answers : script :=
  Script [Ok [("A", meta "x.zip")]; Ok [("A", meta "y.zip"); ("B", meta "z.zip")]]
         (Ok []).

(** The hub that is down for two calls and then answers. *)
Definition hub_recovers (pp : product_map) : script :=
  Script [Raise (SentinelAPIError "HTTP status 503");
          Raise (SentinelAPIError "HTTP status 502")] (Ok pp).

(** * Properties *)

(** ** Event lists *)

Lemma answers_app (a b : list event) : answers (a ++ b) = answers a ++ answers b.
Proof. apply omap_app. Qed.

Lemma queried_app (a b : list event) : queried (a ++ b) = queried a ++ queried b.
Proof. apply omap_app. Qed.

Lemma queries_app (a b : list event) : queries (a ++ b) = queries a ++ queries b.
Proof. apply List.filter_app. Qed.

Lemma sleeps_app (a b : list event) : sleeps (a ++ b) = sleeps a ++ sleeps b.
Proof. apply List.filter_app. Qed.

(** An event that is no query, in front of a run, is not the query a
    decomposition of the run points at. *)
Lemma split_after_quiet (quiet rest pre post : list event) (q : event) :
  is_query q = true ->
  Forall (fun e => is_query e = false) quiet ->
  quiet ++ rest = pre ++ q :: post ->
  exists pre', rest = pre' ++ q :: post.
Proof.
  intros Hq Hquiet. revert pre.
  induction Hquiet as [|e quiet He _ IH]; intros pre Heq.
  - exists pre. exact Heq.
  - destruct pre as [|p pre]; simpl in Heq.
    + injection Heq as -> _. congruence.
    + injection Heq as _ Heq. eauto.
Qed.

Section Runs.
Context `{Ext : Externals}.

Lemma run_eta {A} (r : run A) : r = Run (outcome r) (final r) (emitted r).
Proof. destruct r; reflexivity. Qed.

Lemma bind_ok {A B} (m : M A) (f : A -> M B) (w w' : world) (a : A) (evs : list event) :
  m w = Run (Ok a) w' evs ->
  bind m f w = Run (outcome (f a w')) (final (f a w')) (evs ++ emitted (f a w')).
Proof. intros Hm. unfold bind. rewrite Hm. reflexivity. Qed.

Lemma bind_ok_silent {A B} (m : M A) (f : A -> M B) (w w' : world) (a : A) :
  m w = Run (Ok a) w' [] -> bind m f w = f a w'.
Proof. intros Hm. rewrite (bind_ok _ _ _ _ _ _ Hm). symmetry. apply run_eta. Qed.

Lemma bind_raise {A B} (m : M A) (f : A -> M B) (w w' : world) (e : exn)
    (evs : list event) :
  m w = Run (Raise e) w' evs -> bind m f w = Run (Raise e) w' evs.
Proof. intros Hm. unfold bind. rewrite Hm. reflexivity. Qed.

Lemma bind_assoc {A B C} (m : M A) (f : A -> M B) (g : B -> M C) (w : world) :
  bind (bind m f) g w = bind m (fun a => bind (f a) g) w.
Proof.
  unfold bind. destruct (m w) as [[a|e] w1 evs1]; simpl; [|reflexivity].
  destruct (f a w1) as [[b|e] w2 evs2]; simpl; [|reflexivity].
  rewrite app_assoc. reflexivity.
Qed.

Lemma bind_ext {A B} (m : M A) (f g : A -> M B) (w : world) :
  (forall a w', f a w' = g a w') -> bind m f w = bind m g w.
Proof.
  intros Hfg. unfold bind. destruct (m w) as [[a|e] w1 evs1]; simpl; [|reflexivity].
  rewrite Hfg. reflexivity.
Qed.

Lemma bind_ret_r {A} (m : M A) (w : world) : bind m ret w = m w.
Proof.
  unfold bind, ret. destruct (m w) as [[a|e] w1 evs1]; simpl; [|reflexivity].
  rewrite app_nil_r. reflexivity.
Qed.

End Runs.

Section Retrying.
Context `{Ext : Externals}.

(** ** The steps of loop_query *)

Lemma sleep_loop_run (n : nat) (w : world) :
  sleep_loop n w = Run (Ok tt) w (replicate n (EvSleep 10)).
Proof.
  induction n as [|n IH]; [reflexivity|].
  simpl. unfold bind, emit. simpl. rewrite IH. reflexivity.
Qed.

Lemma api_query_call_run (query_kwargs : loc) (kw : kwargs) (w : world) :
  heap w !! query_kwargs = Some kw ->
  api_query_call query_kwargs w =
    Run (api_query (hub w) kw).2
        (World (heap w) (api_query (hub w) kw).1 (disk w))
        [EvQuery kw (api_query (hub w) kw).2].
Proof.
  intros Hkw. unfold api_query_call, bind, deref. rewrite Hkw. reflexivity.
Qed.

Lemma waiting_quiet err t : Forall (fun e => is_query e = false) (waiting err t).
Proof.
  constructor; [reflexivity|]. apply Forall_replicate. reflexivity.
Qed.

Lemma answers_waiting err t : answers (waiting err t) = [].
Proof.
  unfold waiting, answers. simpl.
  induction (Z.to_nat _) as [|n IH]; [reflexivity | exact IH].
Qed.

Lemma queried_waiting err t : queried (waiting err t) = [].
Proof.
  unfold waiting, queried. simpl.
  induction (Z.to_nat _) as [|n IH]; [reflexivity | exact IH].
Qed.

Lemma queries_waiting err t : queries (waiting err t) = [].
Proof.
  unfold waiting, queries. simpl.
  induction (Z.to_nat _) as [|n IH]; [reflexivity | exact IH].
Qed.

Lemma sleeps_waiting err t :
  length (sleeps (waiting err t)) = Z.to_nat (default 0 t * 6).
Proof.
  unfold waiting, sleeps. simpl.
  induction (Z.to_nat _) as [|n IH]; [reflexivity | simpl; congruence].
Qed.

(** One iteration of the loop, by what [api.query] does. *)
Lemma loop_query_from_returns n l kw t err w pp :
  heap w !! l = Some kw ->
  (api_query (hub w) kw).2 = Ok pp ->
  loop_query_from (S n) l t err w =
    Run (Ok (Some pp)) (answered w kw) [EvQuery kw (Ok pp)].
Proof.
  intros Hkw Hq. simpl. unfold try_except, bind.
  rewrite (api_query_call_run _ _ _ Hkw). simpl. rewrite Hq. simpl.
  unfold answered. reflexivity.
Qed.

Lemma loop_query_from_propagates n l kw t err w e :
  heap w !! l = Some kw ->
  (api_query (hub w) kw).2 = Raise e ->
  is_SentinelAPIError e = false ->
  loop_query_from (S n) l t err w =
    Run (Raise e) (answered w kw) [EvQuery kw (Raise e)].
Proof.
  intros Hkw Hq He. simpl. unfold try_except, bind.
  rewrite (api_query_call_run _ _ _ Hkw). simpl. rewrite Hq. simpl.
  rewrite He. reflexivity.
Qed.

Lemma loop_query_from_breaks n l kw t err w e :
  heap w !! l = Some kw ->
  (api_query (hub w) kw).2 = Raise e ->
  is_SentinelAPIError e = true ->
  truthy t = false ->
  loop_query_from (S n) l t err w =
    Run (Raise e) (answered w kw) [EvQuery kw (Raise e)].
Proof.
  intros Hkw Hq He Ht. simpl. unfold try_except, bind.
  rewrite (api_query_call_run _ _ _ Hkw). simpl. rewrite Hq. simpl.
  rewrite He, Ht. reflexivity.
Qed.

Lemma loop_query_from_retries n l kw t err w e :
  heap w !! l = Some kw ->
  (api_query (hub w) kw).2 = Raise e ->
  is_SentinelAPIError e = true ->
  truthy t = true ->
  let r := loop_query_from n l t (Some e) (answered w kw) in
  loop_query_from (S n) l t err w =
    Run (outcome r) (final r) (EvQuery kw (Raise e) :: waiting e t ++ emitted r).
Proof.
  intros Hkw Hq He Ht. cbn zeta.
  change (loop_query_from (S n) l t err w) with
    (try_except (pp <- api_query_call l ;; ret (Some pp)) is_SentinelAPIError
       (fun err0 =>
          if negb (truthy t) then loop_query_end (Some err0)
          else
            logger_info "An exception occurred contacting DHUS (%s). Waiting %d minutes."
              [VStr (str_exn err0); from_option VInt VNone t] ;;;
            sleep_loop (Z.to_nat (default 0 t * 6)) ;;;
            loop_query_from n l t (Some err0)) w).
  pose proof (api_query_call_run _ _ _ Hkw) as Hcall. rewrite Hq in Hcall.
  unfold try_except, bind, logger_info, emit.
  rewrite !Hcall. simpl. rewrite He, Ht. simpl.
  rewrite !sleep_loop_run. reflexivity.
Qed.

Lemma loop_query_from_dangling n l t err w :
  heap w !! l = None ->
  loop_query_from (S n) l t err w =
    Run (Raise (SystemError "dangling reference")) w [].
Proof.
  intros Hkw. simpl. unfold try_except, bind, api_query_call, bind, deref.
  rewrite Hkw. reflexivity.
Qed.

End Retrying.

Section RetryWrapper.
Context `{Ext : Externals}.

(** What the loop gives when every remaining call fails: one call per
    iteration, all on the same parameters, a full wait after each, and
    the last error raised at the end. *)
Lemma loop_query_from_exhausts (n : nat) (l : loc) (kw : kwargs) (t : option Z) :
  truthy t = true ->
  forall (err : option exn) (w : world),
    heap w !! l = Some kw ->
    always_down (hub w) ->
    let r := loop_query_from n l t err w in
    exists es : list exn,
      length es = n /\
      Forall (fun e => is_SentinelAPIError e = true) es /\
      answers (emitted r) = Raise <$> es /\
      queried (emitted r) = replicate n kw /\
      length (queries (emitted r)) = n /\
      length (sleeps (emitted r)) = (n * Z.to_nat (default 0 t * 6)%Z)%nat /\
      outcome r = outcome (loop_query_end (from_option Some err (last es)) w).
Proof.
  intros Ht. induction n as [|n IH]; intros err w Hkw Hdown; cbn zeta.
  - exists []. simpl. destruct err; simpl; auto 10.
  - destruct Hdown as (Inv & Hh & Hstep).
    destruct (Hstep _ kw Hh) as [Hrec Hnext].
    destruct (api_query (hub w) kw).2 as [pp|e] eqn:Hq; [contradiction|].
    simpl in Hrec.
    rewrite (loop_query_from_retries n l kw t err w e Hkw Hq Hrec Ht).
    cbn [outcome final emitted].
    destruct (IH (Some e) (answered w kw)) as (es & Hlen & Hall & Hans & Hkws & Hqs & Hsl & Hout).
    { exact Hkw. }
    { exists Inv. split; [exact Hnext | exact Hstep]. }
    set (r' := loop_query_from n l t (Some e) (answered w kw)) in *.
    change (EvQuery kw (Raise e) :: waiting e t ++ emitted r')
      with ([EvQuery kw (Raise e)] ++ waiting e t ++ emitted r').
    rewrite !answers_app, !queried_app, !queries_app, !sleeps_app, !length_app.
    rewrite answers_waiting, queried_waiting, queries_waiting, sleeps_waiting.
    rewrite Hans, Hkws, Hqs, Hsl, Hout.
    exists (e :: es). split; [simpl; congruence|].
    split; [constructor; assumption|].
    split; [reflexivity|]. split; [reflexivity|].
    split; [simpl; congruence|]. split; [simpl; lia|].
    destruct es as [|e' es]; [reflexivity|].
    change (last (e :: e' :: es)) with (last (e' :: es)).
    destruct (last (e' :: es)) eqn:Hlast; [reflexivity|].
    apply last_None in Hlast. discriminate.
Qed.

(** C1.  With a truthy [timeout_minutes] and a hub that raises the
    recoverable error on every call, [loop_query] with [max_retries = N >= 1]
    calls [api.query] exactly [N] times, every answer being a recoverable
    error, and then raises the error of the last call. *)
Theorem loop_query_exhausts_retries
    (query_kwargs : loc) (kw : kwargs) (max_retries : Z)
    (timeout_minutes : option Z) (w : world) :
  1 <= max_retries ->
  truthy timeout_minutes = true ->
  heap w !! query_kwargs = Some kw ->
  always_down (hub w) ->
  let r := loop_query query_kwargs max_retries timeout_minutes w in
  Z.of_nat (length (queries (emitted r))) = max_retries /\
  Forall recoverable (answers (emitted r)) /\
  exists e, is_SentinelAPIError e = true /\
            last (answers (emitted r)) = Some (Raise e) /\
            outcome r = Raise e.
Proof.
  intros HN Ht Hkw Hdown. cbn zeta. unfold loop_query.
  destruct (loop_query_from_exhausts (Z.to_nat max_retries) query_kwargs kw
              timeout_minutes Ht None w Hkw Hdown)
    as (es & Hlen & Hall & Hans & _ & Hqs & _ & Hout).
  split; [rewrite Hqs; lia|]. split.
  - rewrite Hans. apply Forall_fmap. eapply Forall_impl; [exact Hall|].
    intros e He. exact He.
  - destruct (last es) as [e|] eqn:Hlast.
    + exists e. repeat split.
      * rewrite Forall_forall in Hall. apply Hall, last_Some_elem_of, Hlast.
      * rewrite Hans, fmap_last, Hlast. reflexivity.
      * rewrite Hout. reflexivity.
    + apply last_None in Hlast. subst es. simpl in Hlen. lia.
Qed.

(** C2.  With [timeout_minutes] zero or [None], a first call that raises
    the recoverable error is the only call: no log record, no sleep, and
    that error is raised, whatever [max_retries >= 1] is. *)
Theorem loop_query_without_timeout_tries_once
    (query_kwargs : loc) (kw : kwargs) (max_retries : Z)
    (timeout_minutes : option Z) (w : world) (e : exn) :
  1 <= max_retries ->
  timeout_minutes = None \/ timeout_minutes = Some 0 ->
  heap w !! query_kwargs = Some kw ->
  (api_query (hub w) kw).2 = Raise e ->
  is_SentinelAPIError e = true ->
  loop_query query_kwargs max_retries timeout_minutes w =
    Run (Raise e) (answered w kw) [EvQuery kw (Raise e)].
Proof.
  intros HN Ht Hkw Hq He. unfold loop_query.
  destruct (Z.to_nat max_retries) as [|n] eqn:Hn; [lia|].
  apply loop_query_from_breaks; try assumption.
  destruct Ht as [-> | ->]; reflexivity.
Qed.

(** C6.  When the first call succeeds, [loop_query] returns the products
    of that call as they are; the call is the only event of the run: no
    sleep, no second call. *)
Theorem loop_query_first_success
    (query_kwargs : loc) (kw : kwargs) (max_retries : Z)
    (timeout_minutes : option Z) (w : world) (pp : product_map) :
  1 <= max_retries ->
  heap w !! query_kwargs = Some kw ->
  (api_query (hub w) kw).2 = Ok pp ->
  loop_query query_kwargs max_retries timeout_minutes w =
    Run (Ok (Some pp)) (answered w kw) [EvQuery kw (Ok pp)].
Proof.
  intros HN Hkw Hq. unfold loop_query.
  destruct (Z.to_nat max_retries) as [|n] eqn:Hn; [lia|].
  apply loop_query_from_returns; assumption.
Qed.

(** A call that raised an error outside [SentinelAPIError] ends the loop,
    at whatever iteration it is made. *)
Lemma loop_query_from_stops_at_fatal (n : nat) (l : loc) (t : option Z) :
  forall (err : option exn) (w : world) (pre post : list event)
         (kw : kwargs) (e : exn),
    is_SentinelAPIError e = false ->
    emitted (loop_query_from n l t err w) = pre ++ EvQuery kw (Raise e) :: post ->
    post = [] /\ outcome (loop_query_from n l t err w) = Raise e.
Proof.
  induction n as [|n IH]; intros err w pre post kw e He Hev.
  - destruct err; simpl in Hev; destruct pre; discriminate.
  - destruct (heap w !! l) as [kw0|] eqn:Hkw.
    2:{ rewrite (loop_query_from_dangling _ _ _ _ _ Hkw) in Hev.
        destruct pre; discriminate. }
    destruct (api_query (hub w) kw0).2 as [pp|e0] eqn:Hq.
    { rewrite (loop_query_from_returns _ _ _ _ _ _ _ Hkw Hq) in Hev. simpl in Hev.
      destruct pre as [|? [|? ?]]; discriminate. }
    destruct (is_SentinelAPIError e0) eqn:He0.
    2:{ rewrite (loop_query_from_propagates _ _ _ _ _ _ _ Hkw Hq He0) in *.
        simpl in *. destruct pre as [|? [|? ?]]; try discriminate.
        injection Hev as -> -> ->. split; reflexivity. }
    destruct (truthy t) eqn:Ht.
    2:{ rewrite (loop_query_from_breaks _ _ _ _ _ _ _ Hkw Hq He0 Ht) in Hev.
        simpl in Hev. destruct pre as [|? [|? ?]]; try discriminate.
        injection Hev as _ <- _. congruence. }
    rewrite (loop_query_from_retries _ _ _ _ _ _ _ Hkw Hq He0 Ht) in *.
    simpl in *. destruct pre as [|p pre]; simpl in Hev.
    { injection Hev as _ <- _. congruence. }
    injection Hev as _ Hev.
    destruct (split_after_quiet _ _ _ _ (EvQuery kw (Raise e)) eq_refl
                (waiting_quiet e0 t) Hev) as [pre' Hrest].
    exact (IH _ _ _ _ _ _ He Hrest).
Qed.

(** C7.  Whenever a call of [api.query] raises an error that is not the
    recoverable one, at whatever attempt, nothing follows that call (no
    wait, no further attempt) and [loop_query] raises that error; this
    for every [max_retries] and [timeout_minutes]. *)
Theorem loop_query_propagates_other_errors
    (query_kwargs : loc) (max_retries : Z) (timeout_minutes : option Z)
    (w : world) (pre post : list event) (kw : kwargs) (e : exn) :
  is_SentinelAPIError e = false ->
  emitted (loop_query query_kwargs max_retries timeout_minutes w)
    = pre ++ EvQuery kw (Raise e) :: post ->
  post = [] /\
  outcome (loop_query query_kwargs max_retries timeout_minutes w) = Raise e.
Proof.
  intros Hfatal Hevents. unfold loop_query in *.
  exact (loop_query_from_stops_at_fatal (Z.to_nat max_retries) query_kwargs
           timeout_minutes None w pre post kw e Hfatal Hevents).
Qed.

(** C10.  With [max_retries] zero or negative the loop body never runs:
    [loop_query] returns [None], calls nothing and raises nothing. *)
Theorem loop_query_no_attempt_returns_None
    (query_kwargs : loc) (max_retries : Z) (timeout_minutes : option Z) (w : world) :
  max_retries <= 0 ->
  loop_query query_kwargs max_retries timeout_minutes w = Run (Ok None) w [].
Proof.
  intros HN. unfold loop_query.
  replace (Z.to_nat max_retries) with 0%nat by lia. reflexivity.
Qed.

End RetryWrapper.

Lemma successes_app (a b : list event) : successes (a ++ b) = successes a ++ successes b.
Proof. apply omap_app. Qed.

Lemma successes_waiting err t : successes (waiting err t) = [].
Proof.
  unfold waiting, successes. simpl.
  induction (Z.to_nat _) as [|n IH]; [reflexivity | exact IH].
Qed.

Section Frame.
Context `{Ext : Externals}.

(** ** What loop_query leaves alone *)

(** [loop_query] changes no dict and no file, reads its parameters from
    the one dict it was given, and what it returns is the products of the
    call that succeeded. *)
Lemma loop_query_from_frame (n : nat) (l : loc) (t : option Z) :
  forall (err : option exn) (w : world),
    let r := loop_query_from n l t err w in
    heap (final r) = heap w /\
    disk (final r) = disk w /\
    Forall (fun kw => heap w !! l = Some kw) (queried (emitted r)) /\
    forall o, outcome r = Ok o -> successes (emitted r) = option_list o.
Proof.
  induction n as [|n IH]; intros err w; cbn zeta.
  - destruct err; simpl; repeat split; try constructor.
    + intros o [=]. 
    + intros o [= <-]. reflexivity.
  - destruct (heap w !! l) as [kw|] eqn:Hkw.
    2:{ rewrite (loop_query_from_dangling _ _ _ _ _ Hkw). simpl.
        repeat split; try constructor. intros o [=]. }
    destruct (api_query (hub w) kw).2 as [pp|e] eqn:Hq.
    { rewrite (loop_query_from_returns _ _ _ _ _ _ _ Hkw Hq). simpl.
      repeat split; [repeat constructor|]. intros o [= <-]. reflexivity. }
    destruct (is_SentinelAPIError e) eqn:He.
    2:{ rewrite (loop_query_from_propagates _ _ _ _ _ _ _ Hkw Hq He). simpl.
        repeat split; [repeat constructor|]. intros o [=]. }
    destruct (truthy t) eqn:Ht.
    2:{ rewrite (loop_query_from_breaks _ _ _ _ _ _ _ Hkw Hq He Ht). simpl.
        repeat split; [repeat constructor|]. intros o [=]. }
    rewrite (loop_query_from_retries _ _ _ _ _ _ _ Hkw Hq He Ht).
    cbn [outcome final emitted].
    destruct (IH (Some e) (answered w kw)) as (Hheap & Hdisk & Hkws & Hok).
    set (r' := loop_query_from n l t (Some e) (answered w kw)) in *.
    change (EvQuery kw (Raise e) :: waiting e t ++ emitted r')
      with ([EvQuery kw (Raise e)] ++ waiting e t ++ emitted r').
    rewrite !queried_app, !successes_app, queried_waiting, successes_waiting.
    change (heap (answered w kw)) with (heap w) in *.
    change (disk (answered w kw)) with (disk w) in *.
    simpl. repeat split; try assumption.
    constructor; [reflexivity | rewrite Hkw in Hkws; exact Hkws].
Qed.

Lemma loop_query_with_frame (l : loc) (lk : loop_kwargs) (w : world) :
  let r := loop_query_with l lk w in
  heap (final r) = heap w /\
  disk (final r) = disk w /\
  Forall (fun kw => heap w !! l = Some kw) (queried (emitted r)) /\
  forall o, outcome r = Ok o -> successes (emitted r) = option_list o.
Proof. apply loop_query_from_frame. Qed.

(** ** Dict objects *)

Lemma fresh_unused (w : world) : heap w !! fresh (dom (heap w)) = None.
Proof. apply not_elem_of_dom, is_fresh. Qed.

Lemma dict_copy_run (l : loc) (d : kwargs) (w : world) :
  heap w !! l = Some d ->
  dict_copy l w =
    Run (Ok (fresh (dom (heap w))))
        (with_heap w (<[fresh (dom (heap w)) := d]> (heap w))) [].
Proof. intros Hl. unfold dict_copy, bind, deref. rewrite Hl. reflexivity. Qed.

Lemma dict_setitem_run (l : loc) (d : kwargs) (k : string) (v : pyval) (w : world) :
  heap w !! l = Some d ->
  dict_setitem l k v w = Run (Ok tt) (with_heap w (<[l := <[k := v]> d]> (heap w))) [].
Proof. intros Hl. unfold dict_setitem, bind, deref. rewrite Hl. reflexivity. Qed.

(** Lines 67-69: the date range goes into the dict [kw] and nowhere else. *)
Lemma set_date_run (kw : loc) (d : kwargs) (date : string) (w : world) :
  heap w !! kw = Some d ->
  set_date kw date w =
    match dateutil_parse date with
    | Raise e => Run (Raise e) w []
    | Ok start_date =>
        match add_one_day start_date with
        | Raise e => Run (Raise e) w []
        | Ok end_date =>
            Run (Ok start_date)
                (with_heap w (<[kw := date_params d start_date end_date]> (heap w))) []
        end
    end.
Proof.
  intros Hkw. unfold set_date, bind at 1.
  destruct (dateutil_parse date) as [start_date|e]; simpl; [|reflexivity].
  unfold bind at 1. destruct (add_one_day start_date) as [end_date|e]; simpl;
    [|reflexivity].
  unfold bind. rewrite (dict_setitem_run _ _ _ _ _ Hkw). reflexivity.
Qed.

End Frame.

Section TileFilter.
Context `{Ext : Externals}.

(** Lines 66-76, case by case.  The new dict [kw] is the only one
    written. *)
Lemma tile_date_kwargs_run (query_kwargs : loc) (d : kwargs)
    (tile date : string) (w : world) :
  heap w !! query_kwargs = Some d ->
  let kw := fresh (dom (heap w)) in
  tile_date_kwargs query_kwargs tile date w =
    match dateutil_parse date with
    | Raise e => Run (Raise e) (with_heap w (<[kw := d]> (heap w))) []
    | Ok start_date =>
        match add_one_day start_date with
        | Raise e => Run (Raise e) (with_heap w (<[kw := d]> (heap w))) []
        | Ok end_date =>
            match datetime_lt start_date (datetime_ymd 2016 11 1) with
            | Raise e =>
                Run (Raise e)
                    (with_heap w (<[kw := date_params d start_date end_date]> (heap w))) []
            | Ok true =>
                Run (Raise unsupported)
                    (with_heap w (<[kw := date_params d start_date end_date]> (heap w))) []
            | Ok false =>
                Run (Ok kw)
                    (with_heap w (<[kw := tile_params d tile start_date end_date]> (heap w))) []
            end
        end
    end.
Proof.
  intros Hd kw. unfold tile_date_kwargs.
  rewrite (bind_ok_silent _ _ _ _ _ (dict_copy_run _ _ _ Hd)). fold kw.
  pose proof (set_date_run kw d date (with_heap w (<[kw := d]> (heap w)))
                (lookup_insert_eq _ _ _)) as Hset.
  destruct (dateutil_parse date) as [start_date|e];
    [|exact (bind_raise _ _ _ _ _ _ Hset)].
  destruct (add_one_day start_date) as [end_date|e];
    [|exact (bind_raise _ _ _ _ _ _ Hset)].
  cbn [with_heap heap hub disk] in Hset. rewrite insert_insert_eq in Hset.
  rewrite (bind_ok_silent _ _ _ _ _ Hset).
  unfold datetime_lt. destruct (tzinfo start_date) as [tz|]; [reflexivity|].
  rewrite (bind_ok_silent _ _ _ _ _ eq_refl).
  destruct (naive_ltb (fields start_date) (datetime_ymd 2016 11 1)); [reflexivity|].
  rewrite (bind_ok_silent _ _ _ _ _ eq_refl).
  unfold tile_params.
  destruct (naive_ltb (fields start_date) (datetime_ymd 2017 3 31));
    erewrite bind_ok_silent
      by (apply (dict_setitem_run kw (date_params d start_date end_date));
          apply lookup_insert_eq);
    cbn [ret with_heap heap hub disk]; rewrite insert_insert_eq; reflexivity.
Qed.

(** A day before 2016-11-01 has a next day. *)
Lemma early_has_next_day (start_date : datetime) :
  datetime_lt start_date (datetime_ymd 2016 11 1) = Ok true ->
  exists end_date, add_one_day start_date = Ok end_date.
Proof.
  unfold datetime_lt, add_one_day.
  destruct (tzinfo start_date); [discriminate|].
  intros [= Hlt]. unfold naive_ltb, naive_key in Hlt. simpl in Hlt.
  cbv zeta.
  destruct (day (fields start_date) <? days_in_month _ _); [eexists; reflexivity|].
  destruct (month (fields start_date) <? 12); [eexists; reflexivity|].
  destruct (year (fields start_date) <? MAXYEAR) eqn:Hy; [eexists; reflexivity|].
  unfold MAXYEAR in Hy. apply Z.ltb_ge in Hy. exfalso.
  apply orb_prop in Hlt as [Hlt|Hlt]; [apply Z.ltb_lt in Hlt; lia|].
  apply andb_prop in Hlt as [Hlt _]. apply Z.eqb_eq in Hlt. lia.
Qed.

End TileFilter.

Section Aggregators.
Context `{Ext : Externals}.

(** ** The loops *)

Lemma for_each_app {A S} (xs ys : list A) (body : S -> A -> M S) (s : S) (w : world) :
  for_each (xs ++ ys) body s w = (s' <- for_each xs body s ;; for_each ys body s') w.
Proof.
  revert s w. induction xs as [|x xs IH]; intros s w; simpl.
  - symmetry. apply (bind_ok_silent _ _ _ _ _ eq_refl).
  - rewrite bind_assoc. apply bind_ext. intros s1 w1. apply IH.
Qed.

Lemma merge_all_app {V} (acc : odict V) (a b : list (odict V)) :
  merge_all acc (a ++ b) = merge_all (merge_all acc a) b.
Proof. apply fold_left_app. Qed.

(** A loop of good iterations is good for the whole list. *)
Lemma for_each_iteration_ok {X} (query_kwargs : loc) (d : kwargs)
    (Q : X -> kwargs -> Prop) (step : product_map -> X -> M product_map) :
  iteration_ok query_kwargs d Q step ->
  forall (xs : list X) (acc : product_map) (w : world),
    heap w !! query_kwargs = Some d ->
    let r := for_each xs step acc w in
    heap (final r) !! query_kwargs = Some d /\
    Forall (fun kw => exists x, x ∈ xs /\ Q x kw) (queried (emitted r)) /\
    forall p, outcome r = Ok p -> p = merge_all acc (successes (emitted r)).
Proof.
  intros Hstep xs. induction xs as [|x xs IH]; intros acc w Hd; cbn zeta.
  - simpl. repeat split; [assumption | constructor |]. intros p [= <-]. reflexivity.
  - simpl. destruct (Hstep acc x w Hd) as (Hd1 & HQ1 & Hm1).
    destruct (step acc x w) as [[acc1|e] w1 evs1] eqn:Hrun; simpl in *.
    + rewrite (bind_ok _ _ _ _ _ _ Hrun). cbn [outcome final emitted].
      destruct (IH acc1 w1 Hd1) as (Hd2 & HQ2 & Hm2).
      rewrite queried_app, successes_app, merge_all_app.
      split; [exact Hd2|]. split.
      * apply Forall_app. split.
        -- eapply Forall_impl; [exact HQ1|]. intros kw Hkw. exists x.
           split; [apply list_elem_of_here | exact Hkw].
        -- eapply Forall_impl; [exact HQ2|]. intros kw (y & Hy & Hkw). exists y.
           split; [apply list_elem_of_further, Hy | exact Hkw].
      * intros p Hp. rewrite <- (Hm1 acc1 eq_refl). apply Hm2, Hp.
    + rewrite (bind_raise _ _ _ _ _ _ Hrun). cbn [outcome final emitted].
      split; [exact Hd1|]. split.
      * eapply Forall_impl; [exact HQ1|]. intros kw Hkw. exists x.
        split; [apply list_elem_of_here | exact Hkw].
      * intros p [=].
Qed.

(** ** The common end of an iteration *)

(** Lines 77-79 and 105-107: query on the dict [kw], log, merge. *)
Lemma query_log_merge (kw : loc) (params : kwargs) (lk : loop_kwargs)
    (acc : product_map) (date : string) (w : world) :
  heap w !! kw = Some params ->
  let r := (pp <- loop_query_with kw lk ;;
            n <- len pp ;;
            logger_info "   -- date %s (%d)" [VStr date; VInt n] ;;;
            products_update acc pp) w in
  heap (final r) = heap w /\
  Forall (eq params) (queried (emitted r)) /\
  forall p, outcome r = Ok p -> p = merge_all acc (successes (emitted r)).
Proof.
  intros Hkw. cbn zeta.
  destruct (loop_query_with_frame kw lk w) as (Hheap & _ & Hkws & Hok).
  assert (Hsame : Forall (eq params) (queried (emitted (loop_query_with kw lk w)))).
  { eapply Forall_impl; [exact Hkws|]. intros kw' Hkw'. congruence. }
  destruct (loop_query_with kw lk w) as [[[pp|]|e] w0 evs0] eqn:Hrun;
    cbn [outcome final emitted] in *.
  - rewrite (bind_ok _ _ _ _ _ _ Hrun). cbn -[app queried successes merge_all].
    rewrite queried_app, successes_app, (Hok _ eq_refl). simpl.
    rewrite app_nil_r. repeat split; try assumption.
    intros p [= <-]. reflexivity.
  - rewrite (bind_ok _ _ _ _ _ _ Hrun). cbn -[app queried successes merge_all].
    rewrite app_nil_r. repeat split; try assumption. intros p [=].
  - rewrite (bind_raise _ _ _ _ _ _ Hrun). simpl.
    repeat split; try assumption. intros p [=].
Qed.

(** Lines 131-132: query on the dict [kw], merge. *)
Lemma query_merge (kw : loc) (params : kwargs) (lk : loop_kwargs)
    (acc : product_map) (w : world) :
  heap w !! kw = Some params ->
  let r := (pp <- loop_query_with kw lk ;; products_update acc pp) w in
  heap (final r) = heap w /\
  Forall (eq params) (queried (emitted r)) /\
  forall p, outcome r = Ok p -> p = merge_all acc (successes (emitted r)).
Proof.
  intros Hkw. cbn zeta.
  destruct (loop_query_with_frame kw lk w) as (Hheap & _ & Hkws & Hok).
  assert (Hsame : Forall (eq params) (queried (emitted (loop_query_with kw lk w)))).
  { eapply Forall_impl; [exact Hkws|]. intros kw' Hkw'. congruence. }
  destruct (loop_query_with kw lk w) as [[[pp|]|e] w0 evs0] eqn:Hrun;
    cbn [outcome final emitted] in *.
  - rewrite (bind_ok _ _ _ _ _ _ Hrun). cbn -[app queried successes merge_all].
    rewrite app_nil_r, (Hok _ eq_refl). repeat split; try assumption.
    intros p [= <-]. reflexivity.
  - rewrite (bind_ok _ _ _ _ _ _ Hrun). cbn -[app queried successes merge_all].
    rewrite app_nil_r. repeat split; try assumption. intros p [=].
  - rewrite (bind_raise _ _ _ _ _ _ Hrun). simpl.
    repeat split; try assumption. intros p [=].
Qed.

(** ** The iterations *)

Lemma lookup_via (h h' : gmap loc kwargs) (l : loc) (o : option kwargs) :
  h = h' -> h' !! l = o -> h !! l = o.
Proof. intros -> Ho. exact Ho. Qed.

Lemma copy_is_not_base (query_kwargs : loc) (d : kwargs) (w : world) :
  heap w !! query_kwargs = Some d -> fresh (dom (heap w)) <> query_kwargs.
Proof. intros Hd Heq. pose proof (fresh_unused w) as Hf. congruence. Qed.

Lemma query_rel_orbit_numbers_step_ok (query_kwargs : loc) (d : kwargs)
    (lk : loop_kwargs) :
  iteration_ok query_kwargs d (fun ron kw => kw = orbit_params d ron)
    (query_rel_orbit_numbers_step query_kwargs lk).
Proof.
  intros acc ron w Hd. cbn zeta. unfold query_rel_orbit_numbers_step.
  rewrite (bind_ok_silent _ _ _ _ _ (dict_copy_run _ _ _ Hd)).
  set (kw := fresh (dom (heap w))).
  erewrite bind_ok_silent by (apply (dict_setitem_run kw d); apply lookup_insert_eq).
  cbn [with_heap heap hub disk]. rewrite insert_insert_eq.
  destruct (query_merge kw (orbit_params d ron) lk acc
              (World (<[kw := orbit_params d ron]> (heap w)) (hub w) (disk w)))
    as (Hheap & Hkws & Hmerge); [apply lookup_insert_eq|].
  split; [|split].
  - apply (lookup_via _ _ _ _ Hheap). cbn [heap].
    rewrite lookup_insert_ne; [exact Hd|]. apply copy_is_not_base with d, Hd.
  - eapply Forall_impl; [exact Hkws|]. intros kw' <-. reflexivity.
  - exact Hmerge.
Qed.

Lemma query_dates_step_ok (query_kwargs : loc) (d : kwargs) (lk : loop_kwargs) :
  iteration_ok query_kwargs d
    (fun date kw => exists start_date end_date,
         dateutil_parse date = Ok start_date /\
         add_one_day start_date = Ok end_date /\
         kw = date_params d start_date end_date)
    (query_dates_step query_kwargs lk).
Proof.
  intros acc date w Hd. cbn zeta. unfold query_dates_step.
  rewrite (bind_ok_silent _ _ _ _ _ (dict_copy_run _ _ _ Hd)).
  set (kw := fresh (dom (heap w))).
  assert (Hbase : (<[kw := d]> (heap w)) !! query_kwargs = Some d).
  { rewrite lookup_insert_ne; [exact Hd|]. apply copy_is_not_base with d, Hd. }
  pose proof (set_date_run kw d date (with_heap w (<[kw := d]> (heap w)))
                (lookup_insert_eq _ _ _)) as Hset.
  destruct (dateutil_parse date) as [start_date|e] eqn:Hparse.
  2:{ rewrite (bind_raise _ _ _ _ _ _ Hset). cbn.
      split; [exact Hbase|]. split; [constructor|]. intros p [=]. }
  destruct (add_one_day start_date) as [end_date|e] eqn:Hend.
  2:{ rewrite (bind_raise _ _ _ _ _ _ Hset). cbn.
      split; [exact Hbase|]. split; [constructor|]. intros p [=]. }
  cbn [with_heap heap hub disk] in Hset. rewrite insert_insert_eq in Hset.
  rewrite (bind_ok_silent _ _ _ _ _ Hset).
  destruct (query_log_merge kw (date_params d start_date end_date) lk acc date
              (World (<[kw := date_params d start_date end_date]> (heap w)) (hub w) (disk w)))
    as (Hheap & Hkws & Hmerge); [apply lookup_insert_eq|].
  split; [|split].
  - apply (lookup_via _ _ _ _ Hheap). cbn [heap].
    rewrite lookup_insert_ne; [exact Hd|]. apply copy_is_not_base with d, Hd.
  - eapply Forall_impl; [exact Hkws|]. intros kw' <-. eauto.
  - exact Hmerge.
Qed.

Lemma query_tiles_dates_step_ok (query_kwargs : loc) (d : kwargs)
    (lk : loop_kwargs) (tile : string) :
  iteration_ok query_kwargs d
    (fun date kw => exists start_date end_date,
         dateutil_parse date = Ok start_date /\
         add_one_day start_date = Ok end_date /\
         datetime_lt start_date (datetime_ymd 2016 11 1) = Ok false /\
         kw = tile_params d tile start_date end_date)
    (query_tiles_dates_step query_kwargs lk tile).
Proof.
  intros acc date w Hd. cbn zeta. unfold query_tiles_dates_step.
  pose proof (tile_date_kwargs_run query_kwargs d tile date w Hd) as Hkw.
  cbn zeta in Hkw. set (kw := fresh (dom (heap w))) in *.
  assert (Hbase : forall params, (<[kw := params]> (heap w)) !! query_kwargs = Some d).
  { intros params. rewrite lookup_insert_ne; [exact Hd|].
    apply copy_is_not_base with d, Hd. }
  destruct (dateutil_parse date) as [start_date|e] eqn:Hparse.
  2:{ rewrite (bind_raise _ _ _ _ _ _ Hkw). cbn.
      split; [apply Hbase|]. split; [constructor|]. intros p [=]. }
  destruct (add_one_day start_date) as [end_date|e] eqn:Hend.
  2:{ rewrite (bind_raise _ _ _ _ _ _ Hkw). cbn.
      split; [apply Hbase|]. split; [constructor|]. intros p [=]. }
  destruct (datetime_lt start_date (datetime_ymd 2016 11 1)) as [[|]|e] eqn:Hearly.
  1,3: rewrite (bind_raise _ _ _ _ _ _ Hkw); cbn;
       (split; [apply Hbase|]); (split; [constructor|]); intros p [=].
  rewrite (bind_ok_silent _ _ _ _ _ Hkw).
  destruct (query_log_merge kw (tile_params d tile start_date end_date) lk acc date
              (with_heap w (<[kw := tile_params d tile start_date end_date]> (heap w))))
    as (Hheap & Hkws & Hmerge); [apply lookup_insert_eq|].
  split; [|split].
  - apply (lookup_via _ _ _ _ Hheap). apply Hbase.
  - eapply Forall_impl; [exact Hkws|]. intros kw' <-. eauto 10.
  - exact Hmerge.
Qed.

(** The body of the outer loop of [query_tiles_dates]. *)
Lemma query_tiles_dates_tile_ok (query_kwargs : loc) (d : kwargs) (lk : loop_kwargs) :
  iteration_ok query_kwargs d
    (fun (td : string * list string) kw =>
       exists date start_date end_date,
         date ∈ td.2 /\
         dateutil_parse date = Ok start_date /\
         add_one_day start_date = Ok end_date /\
         datetime_lt start_date (datetime_ymd 2016 11 1) = Ok false /\
         kw = tile_params d td.1 start_date end_date)
    (fun products td =>
       logger_info "-- tile %s" [VStr td.1] ;;;
       for_each td.2 (query_tiles_dates_step query_kwargs lk td.1) products).
Proof.
  intros acc td w Hd. cbn zeta.
  rewrite (bind_ok _ _ _ _ _ _ eq_refl). cbn [outcome final emitted].
  destruct (for_each_iteration_ok _ _ _ _
              (query_tiles_dates_step_ok query_kwargs d lk td.1) td.2 acc w Hd)
    as (Hd' & HQ & Hmerge).
  split; [exact Hd'|]. split.
  - change (queried ([EvLog INFO "-- tile %s" [VStr td.1]] ++ ?evs)) with (queried evs).
    eapply Forall_impl; [exact HQ|].
    intros kw (date & Hin & start_date & end_date & H1 & H2 & H3 & H4).
    exists date, start_date, end_date. auto.
  - exact Hmerge.
Qed.

End Aggregators.

Section AggregatorClaims.
Context `{Ext : Externals}.

(** C8.  Whatever an aggregator does (return or raise), the caller's
    mapping at [query_kwargs] holds after the call the items [d] it held
    before; and every call of [api.query] the aggregator made was given
    these items with the keys of one iteration only: the date range and
    the tile filter of one (tile, date), the date range of one date, or the
    orbit number of one item. *)
Theorem aggregators_keep_base_params
    (query_kwargs : loc) (d : kwargs) (lk : loop_kwargs) (w : world)
    (tiles_dates : odict (list string)) (dates : list string)
    (rel_orbit_numbers : list Z) :
  heap w !! query_kwargs = Some d ->
  (let r := query_tiles_dates tiles_dates query_kwargs lk w in
   heap (final r) !! query_kwargs = Some d /\
   Forall (fun kw => exists tile ds date start_date end_date,
               (tile, ds) ∈ tiles_dates /\ date ∈ ds /\
               dateutil_parse date = Ok start_date /\
               add_one_day start_date = Ok end_date /\
               kw = tile_params d tile start_date end_date)
          (queried (emitted r))) /\
  (let r := query_dates dates query_kwargs lk w in
   heap (final r) !! query_kwargs = Some d /\
   Forall (fun kw => exists date start_date end_date,
               date ∈ dates /\
               dateutil_parse date = Ok start_date /\
               add_one_day start_date = Ok end_date /\
               kw = date_params d start_date end_date)
          (queried (emitted r))) /\
  (let r := query_rel_orbit_numbers rel_orbit_numbers query_kwargs lk w in
   heap (final r) !! query_kwargs = Some d /\
   Forall (fun kw => exists ron, ron ∈ rel_orbit_numbers /\ kw = orbit_params d ron)
          (queried (emitted r))).
Proof.
  intros Hd. split; [|split]; cbn zeta.
  - destruct (for_each_iteration_ok _ _ _ _
                (query_tiles_dates_tile_ok query_kwargs d lk) tiles_dates [] w Hd)
      as (Hd' & HQ & _).
    split; [exact Hd'|]. eapply Forall_impl; [exact HQ|].
    intros kw ([tile ds] & Hin & date & start_date & end_date & H1 & H2 & H3 & _ & H5).
    exists tile, ds, date, start_date, end_date. auto.
  - destruct (for_each_iteration_ok _ _ _ _
                (query_dates_step_ok query_kwargs d lk) dates [] w Hd)
      as (Hd' & HQ & _).
    split; [exact Hd'|]. eapply Forall_impl; [exact HQ|].
    intros kw (date & Hin & start_date & end_date & H1 & H2 & H3).
    exists date, start_date, end_date. auto.
  - destruct (for_each_iteration_ok _ _ _ _
                (query_rel_orbit_numbers_step_ok query_kwargs d lk)
                rel_orbit_numbers [] w Hd)
      as (Hd' & HQ & _).
    split; [exact Hd'|]. exact HQ.
Qed.

(** C4, amended.  For a date that parses to a naive datetime (one without
    a time zone) on or after 2016-11-01 and that has a next day, the dict
    the iteration builds is a new one; before 2017-03-31 it gets the
    filename glob of the tile and keeps the tile id of the caller's
    mapping, from 2017-03-31 on it gets the tile id and keeps the filename
    of the caller's mapping; these are the parameters of every call of
    [api.query] in the iteration. *)
Theorem tile_filter_by_date
    (query_kwargs : loc) (d : kwargs) (lk : loop_kwargs) (tile date : string)
    (start_date end_date : datetime) (products : product_map) (w : world) :
  heap w !! query_kwargs = Some d ->
  dateutil_parse date = Ok start_date ->
  add_one_day start_date = Ok end_date ->
  tzinfo start_date = None ->
  naive_ltb (fields start_date) (datetime_ymd 2016 11 1) = false ->
  tile_filter_set query_kwargs d tile date start_date w /\
  (let r := tile_date_kwargs query_kwargs tile date w in
   exists kw, outcome r = Ok kw /\ heap w !! kw = None /\ emitted r = [] /\
              heap (final r) = <[kw := tile_params d tile start_date end_date]> (heap w)) /\
  Forall (eq (tile_params d tile start_date end_date))
    (queried (emitted (query_tiles_dates_step query_kwargs lk tile products date w))).
Proof.
  intros Hd Hparse Hend Hnaive Hnot_before.
  assert (Hlate : datetime_lt start_date (datetime_ymd 2016 11 1) = Ok false).
  { unfold datetime_lt. rewrite Hnaive, Hnot_before. reflexivity. }
  pose proof (tile_date_kwargs_run query_kwargs d tile date w Hd) as Hrun.
  cbn zeta in Hrun. rewrite Hparse, Hend, Hlate in Hrun.
  split; [|split].
  - unfold tile_filter_set. cbn zeta. rewrite Hrun. cbn [outcome final emitted].
    exists (fresh (dom (heap w))), (tile_params d tile start_date end_date),
           (naive_ltb (fields start_date) (datetime_ymd 2017 3 31)).
    split; [reflexivity|]. split; [apply lookup_insert_eq|].
    split; [unfold datetime_lt; rewrite Hnaive; reflexivity|].
    unfold tile_params, date_params.
    destruct (naive_ltb (fields start_date) (datetime_ymd 2017 3 31)).
    + split; [apply lookup_insert_eq|].
      rewrite !lookup_insert_ne by discriminate. reflexivity.
    + split; [apply lookup_insert_eq|].
      rewrite !lookup_insert_ne by discriminate. reflexivity.
  - cbn zeta. rewrite Hrun. exists (fresh (dom (heap w))).
    split; [reflexivity|]. split; [apply fresh_unused|]. split; reflexivity.
  - destruct (query_tiles_dates_step_ok query_kwargs d lk tile products date w Hd)
      as (_ & HQ & _).
    eapply Forall_impl; [exact HQ|].
    intros kw (s & e & Hs & He & _ & ->).
    rewrite Hparse in Hs. injection Hs as <-.
    rewrite Hend in He. injection He as <-. reflexivity.
Qed.

(** The iteration of a date before 2016-11-01, from any state and with
    any products gathered so far. *)
Lemma query_tiles_dates_step_early
    (query_kwargs : loc) (d : kwargs) (lk : loop_kwargs) (tile date : string)
    (start_date : datetime) (products : product_map) (w : world) :
  heap w !! query_kwargs = Some d ->
  dateutil_parse date = Ok start_date ->
  datetime_lt start_date (datetime_ymd 2016 11 1) = Ok true ->
  let r := query_tiles_dates_step query_kwargs lk tile products date w in
  outcome r = Raise unsupported /\ emitted r = [].
Proof.
  intros Hd Hparse Hearly. cbn zeta.
  destruct (early_has_next_day _ Hearly) as [end_date Hend].
  pose proof (tile_date_kwargs_run query_kwargs d tile date w Hd) as Hrun.
  cbn zeta in Hrun. rewrite Hparse, Hend, Hearly in Hrun.
  unfold query_tiles_dates_step. rewrite (bind_raise _ _ _ _ _ _ Hrun).
  split; reflexivity.
Qed.

(** A loop stops at the iteration that raises. *)
Lemma for_each_raises_at {A S} (xs ys : list A) (x : A) (body : S -> A -> M S)
    (s acc : S) (w w1 w2 : world) (evs1 evs2 : list event) (e : exn) :
  for_each xs body s w = Run (Ok acc) w1 evs1 ->
  body acc x w1 = Run (Raise e) w2 evs2 ->
  for_each (xs ++ x :: ys) body s w = Run (Raise e) w2 (evs1 ++ evs2).
Proof.
  intros Hxs Hx. rewrite for_each_app, (bind_ok _ _ _ _ _ _ Hxs). simpl.
  rewrite (bind_raise _ _ _ _ _ _ Hx). reflexivity.
Qed.

Lemma for_each_snoc {A S} (xs : list A) (x : A) (body : S -> A -> M S)
    (s : S) (w : world) :
  for_each (xs ++ [x]) body s w = (s' <- for_each xs body s ;; body s' x) w.
Proof.
  rewrite for_each_app. apply bind_ext. intros s' w'. simpl. apply bind_ret_r.
Qed.

(** C3, amended.  An iteration of [query_tiles_dates] whose date parses to
    a naive datetime (one without a time zone) before 2016-11-01 raises
    the [ValueError] of the tile search and emits nothing; hence, when the
    iterations before it complete, the call raises that error and its
    events are those of the iterations before: [api.query] is not called
    for that date. *)
Theorem query_tiles_dates_rejects_early_dates
    (query_kwargs : loc) (d : kwargs) (lk : loop_kwargs) (w : world)
    (before after : odict (list string)) (tile : string)
    (ds1 ds2 : list string) (date : string) (start_date : datetime) :
  heap w !! query_kwargs = Some d ->
  dateutil_parse date = Ok start_date ->
  tzinfo start_date = None ->
  naive_ltb (fields start_date) (datetime_ymd 2016 11 1) = true ->
  (forall products w',
      heap w' !! query_kwargs = Some d ->
      let r := query_tiles_dates_step query_kwargs lk tile products date w' in
      outcome r = Raise unsupported /\ emitted r = []) /\
  (let reached := query_tiles_dates (before ++ [(tile, ds1)]) query_kwargs lk w in
   let r := query_tiles_dates (before ++ (tile, ds1 ++ date :: ds2) :: after)
              query_kwargs lk w in
   forall acc, outcome reached = Ok acc ->
               outcome r = Raise unsupported /\ emitted r = emitted reached).
Proof.
  intros Hd Hparse Hnaive Hold.
  assert (Hearly : datetime_lt start_date (datetime_ymd 2016 11 1) = Ok true).
  { unfold datetime_lt. rewrite Hnaive, Hold. reflexivity. }
  split.
  { intros products w' Hd'.
    exact (query_tiles_dates_step_early _ _ lk tile date _ products w' Hd' Hparse Hearly). }
  cbn zeta. intros acc. unfold query_tiles_dates.
  set (outer := fun (products : product_map) (td : string * list string) =>
                  logger_info "-- tile %s" [VStr td.1] ;;;
                  for_each td.2 (query_tiles_dates_step query_kwargs lk td.1) products).
  rewrite for_each_snoc.
  destruct (for_each_iteration_ok _ _ _ _
              (query_tiles_dates_tile_ok query_kwargs d lk) before [] w Hd)
    as (Hd0 & _ & _).
  fold outer in Hd0.
  destruct (for_each before outer [] w) as [[s0|e0] w0 evs0] eqn:Hbefore;
    cbn [final] in Hd0.
  2:{ rewrite (bind_raise _ _ _ _ _ _ Hbefore). intros [=]. }
  rewrite (bind_ok _ _ _ _ _ _ Hbefore). cbn [outcome emitted].
  assert (Hreach : outer s0 (tile, ds1) w0 =
            let y := for_each ds1 (query_tiles_dates_step query_kwargs lk tile) s0 w0 in
            Run (outcome y) (final y) ([EvLog INFO "-- tile %s" [VStr tile]] ++ emitted y)).
  { reflexivity. }
  rewrite Hreach. cbn zeta. cbn [outcome final emitted]. clear Hreach.
  destruct (for_each_iteration_ok _ _ _ _
              (query_tiles_dates_step_ok query_kwargs d lk tile) ds1 s0 w0 Hd0)
    as (Hd1 & _ & _).
  destruct (for_each ds1 (query_tiles_dates_step query_kwargs lk tile) s0 w0)
    as [[s1|e1] w1 evs1] eqn:Hds1; cbn [outcome final emitted] in *; [|intros [=]].
  intros _.
  destruct (query_tiles_dates_step_early _ _ lk tile date _ s1 w1 Hd1 Hparse Hearly)
    as [Hout Hev].
  assert (Hstep : query_tiles_dates_step query_kwargs lk tile s1 date w1 =
                  Run (Raise unsupported)
                      (final (query_tiles_dates_step query_kwargs lk tile s1 date w1)) []).
  { rewrite (run_eta (query_tiles_dates_step _ _ _ _ _ _)) at 1.
    rewrite Hout, Hev. reflexivity. }
  pose proof (for_each_raises_at ds1 ds2 date _ s0 s1 w0 w1 _ evs1 [] unsupported
                Hds1 Hstep) as Hinner.
  assert (Houter : outer s0 (tile, ds1 ++ date :: ds2) w0 =
                   Run (Raise unsupported)
                       (final (query_tiles_dates_step query_kwargs lk tile s1 date w1))
                       ([EvLog INFO "-- tile %s" [VStr tile]] ++ evs1 ++ [])).
  { unfold outer, bind, logger_info, emit. cbn [fst snd outcome final emitted].
    rewrite Hinner. reflexivity. }
  rewrite (for_each_raises_at before after _ outer [] s0 w w0 _ evs0 _ unsupported
             Hbefore Houter).
  cbn [outcome emitted]. rewrite app_nil_r. split; reflexivity.
Qed.

End AggregatorClaims.

(** ** Merging ordered dictionaries *)

Section Merging.
Context {V : Type}.
Implicit Types (d acc pp items : odict V) (k : string) (v : V).

Lemma od_keys_app d pp : od_keys (d ++ pp) = od_keys d ++ od_keys pp.
Proof. apply fmap_app. Qed.

Lemma od_keys_set_old k v d : k ∈ od_keys d -> od_keys (od_set k v d) = od_keys d.
Proof.
  induction d as [|[k' v'] d IH]; simpl; intros Hin.
  - inversion Hin.
  - destruct (String.eqb_spec k k') as [->|Hne]; [reflexivity|].
    simpl. f_equal. apply IH. apply elem_of_cons in Hin as [?|?]; [contradiction | assumption].
Qed.

Lemma od_keys_set_new k v d : k ∉ od_keys d -> od_keys (od_set k v d) = od_keys d ++ [k].
Proof.
  induction d as [|[k' v'] d IH]; simpl; intros Hnin; [reflexivity|].
  destruct (String.eqb_spec k k') as [->|Hne].
  - exfalso. apply Hnin. left.
  - simpl. f_equal. apply IH. intros Hin. apply Hnin. right. exact Hin.
Qed.

Lemma od_lookup_set k k' v d :
  od_lookup k (od_set k' v d) = if String.eqb k k' then Some v else od_lookup k d.
Proof.
  induction d as [|[k0 v0] d IH]; simpl.
  - reflexivity.
  - destruct (String.eqb_spec k' k0) as [->|Hne]; simpl.
    + destruct (String.eqb_spec k k0); reflexivity.
    + rewrite IH. destruct (String.eqb_spec k k0) as [->|Hne0]; [|reflexivity].
      destruct (String.eqb_spec k0 k'); [congruence | reflexivity].
Qed.

Lemma od_lookup_app k d pp :
  od_lookup k (d ++ pp) =
    match od_lookup k d with Some v => Some v | None => od_lookup k pp end.
Proof.
  induction d as [|[k0 v0] d IH]; simpl; [reflexivity|].
  destruct (String.eqb k k0); [reflexivity | exact IH].
Qed.

Lemma od_update_cons acc k v items :
  od_update acc ((k, v) :: items) = od_update (od_set k v acc) items.
Proof. reflexivity. Qed.

(** The keys after an update: those of the accumulator where they were,
    then the keys it did not have, in the order they first come. *)
Lemma od_keys_update acc items :
  od_keys (od_update acc items) =
    od_keys acc ++ filter (fun k => k ∉ od_keys acc) (first_seen (od_keys items)).
Proof.
  revert acc. induction items as [|[k v] items IH]; intros acc.
  - simpl. rewrite app_nil_r. reflexivity.
  - rewrite od_update_cons, IH. simpl first_seen.
    destruct (decide (k ∈ od_keys acc)) as [Hin|Hnin].
    + rewrite (od_keys_set_old _ _ _ Hin). f_equal.
      rewrite filter_cons_False by (intros Hk; apply Hk, Hin).
      rewrite list_filter_filter. apply list_filter_iff.
      intros k'. split; [|tauto]. intros Hk'. split; [exact Hk'|].
      intros ->. exact (Hk' Hin).
    + rewrite (od_keys_set_new _ _ _ Hnin), <- app_assoc. f_equal.
      rewrite filter_cons_True by exact Hnin. simpl. f_equal.
      rewrite list_filter_filter. apply list_filter_iff.
      intros k'. rewrite elem_of_app, list_elem_of_singleton. tauto.
Qed.

(** The values after an update: the last one given, else the old one. *)
Lemma od_lookup_update k acc items :
  od_lookup k (od_update acc items) =
    match od_lookup k (reverse items) with
    | Some v => Some v
    | None => od_lookup k acc
    end.
Proof.
  revert acc. induction items as [|[k0 v0] items IH]; intros acc; [reflexivity|].
  rewrite od_update_cons, IH, reverse_cons, od_lookup_app, od_lookup_set. simpl.
  destruct (od_lookup k (reverse items)); [reflexivity|].
  destruct (String.eqb k k0); reflexivity.
Qed.

Lemma merge_all_concat acc (pps : list (odict V)) :
  merge_all acc pps = od_update acc (concat pps).
Proof.
  revert acc. induction pps as [|pp pps IH]; intros acc; [reflexivity|].
  simpl. rewrite IH. unfold od_update. rewrite fold_left_app. reflexivity.
Qed.

Lemma od_keys_concat (pps : list (odict V)) :
  od_keys (concat pps) = concat (od_keys <$> pps).
Proof.
  induction pps as [|pp pps IH]; [reflexivity|].
  simpl. rewrite od_keys_app, IH. reflexivity.
Qed.

End Merging.

(** Merging a sequence of result collections into an accumulator
    keeps every key of the accumulator at its position and puts the new
    keys after them in the order they first come; the value of a key is
    the one of the last collection that has it, else the one the
    accumulator had.  So the merge of [{A: x}] then [{A: y, B: z}] is
    [{A: y, B: z}], [A] first. *)
Theorem merges_keep_insertion_order (acc : product_map) (pps : list product_map) :
  let m := merge_all acc pps in
  od_keys m = od_keys acc ++
              filter (fun k => k ∉ od_keys acc) (first_seen (concat (od_keys <$> pps))) /\
  (forall (i : nat) (k : string), od_keys acc !! i = Some k -> od_keys m !! i = Some k) /\
  (forall k : string,
      od_lookup k m = match od_lookup k (reverse (concat pps)) with
                      | Some v => Some v
                      | None => od_lookup k acc
                      end) /\
  (forall x y z : metadata,
      merge_all [] [[("A", x)]; [("A", y); ("B", z)]] = [("A", y); ("B", z)]).
Proof.
  cbn zeta. rewrite merge_all_concat.
  assert (Hkeys := od_keys_update acc (concat pps)).
  rewrite od_keys_concat in Hkeys.
  split; [exact Hkeys|]. split; [|split].
  - intros i k Hi. rewrite Hkeys. apply lookup_app_l_Some, Hi.
  - intros k. apply od_lookup_update.
  - reflexivity.
Qed.

(** The example of the specification, for any three records. *)
Lemma merges_keep_insertion_order_witness :
  let x := meta "x.zip" in
  let y := meta "y.zip" in
  let z := meta "z.zip" in
  let m := merge_all [("A", x)] [[("A", y); ("B", z)]] in
  m = [("A", y); ("B", z)] /\
  od_keys m !! 0%nat = Some "A" /\
  od_lookup "A" m = Some y.
Proof.
  cbn zeta.
  destruct (merges_keep_insertion_order [("A", meta "x.zip")]
              [[("A", meta "y.zip"); ("B", meta "z.zip")]]) as (_ & Hpos & Hval & _).
  split; [reflexivity|]. split.
  - apply (Hpos 0%nat "A"). reflexivity.
  - rewrite (Hval "A"). reflexivity.
Defined.

Section MergedAnswers.
Context `{Ext : Externals}.

(** What an aggregator returns is the merge, in call order, of the
    products of its calls of [api.query] that succeeded. *)
Lemma aggregators_return_merge
    (query_kwargs : loc) (d : kwargs) (lk : loop_kwargs) (w : world)
    (tiles_dates : odict (list string)) (dates : list string)
    (rel_orbit_numbers : list Z) :
  heap w !! query_kwargs = Some d ->
  (forall p, outcome (query_tiles_dates tiles_dates query_kwargs lk w) = Ok p ->
     p = merge_all [] (successes (emitted (query_tiles_dates tiles_dates query_kwargs lk w)))) /\
  (forall p, outcome (query_dates dates query_kwargs lk w) = Ok p ->
     p = merge_all [] (successes (emitted (query_dates dates query_kwargs lk w)))) /\
  (forall p, outcome (query_rel_orbit_numbers rel_orbit_numbers query_kwargs lk w) = Ok p ->
     p = merge_all []
           (successes (emitted (query_rel_orbit_numbers rel_orbit_numbers query_kwargs lk w)))).
Proof.
  intros Hd. split; [|split].
  - apply (for_each_iteration_ok _ _ _ _
             (query_tiles_dates_tile_ok query_kwargs d lk) tiles_dates [] w Hd).
  - apply (for_each_iteration_ok _ _ _ _
             (query_dates_step_ok query_kwargs d lk) dates [] w Hd).
  - apply (for_each_iteration_ok _ _ _ _
             (query_rel_orbit_numbers_step_ok query_kwargs d lk)
             rel_orbit_numbers [] w Hd).
Qed.

End MergedAnswers.

(** ** delete_empty *)

Section Cleanup.
Context `{Ext : Externals}.

Lemma cleanup_events_app (a b : list event) :
  cleanup_events a -> cleanup_events b -> cleanup_events (a ++ b).
Proof.
  unfold cleanup_events, removals, seen_empty, warnings, failed_removals.
  intros [Ha1 Ha2] [Hb1 Hb2]. rewrite !omap_app, fmap_app. split; congruence.
Qed.

Lemma delete_empty_step_run (item : string * metadata) (w : world) :
  let r := delete_empty_step tt item w in
  cleanup_events (emitted r) /\ cleanup_ending [item] r /\
  (outcome r = Ok tt -> exists p, item.2 !! "path" = Some p).
Proof.
  cbn zeta. unfold delete_empty_step, getitem.
  destruct (item.2 !! "path") as [p|] eqn:Hpath.
  2:{ rewrite (bind_raise _ _ _ _ _ _ eq_refl).
      split; [split; reflexivity|]. split; [|intros [=]].
      right. exists (KeyError "path"). split; [reflexivity|]. left.
      split; [reflexivity|]. exists item. split; [apply list_elem_of_here | exact Hpath]. }
  rewrite (bind_ok_silent _ _ _ _ _ eq_refl).
  unfold cleanup_ending.
  unfold bind, getsize. cbn [outcome final emitted].
  destruct (os_path_getsize (disk w) p) as [n|e] eqn:Hsize; cbn [outcome final emitted].
  2:{ split; [split; reflexivity|]. split; [|intros [=]].
      right. exists e. split; [reflexivity|]. right. exists [], p. reflexivity. }
  destruct (Z.eqb_spec n 0) as [->|Hn].
  - unfold try_except, remove. cbn [outcome final emitted].
    destruct (os_remove (disk w) p) as [dk [msg|]]; cbn [fst snd outcome final emitted is_OSError].
    + split; [split; reflexivity|]. split; [|eauto]. left.
      split; [reflexivity | simpl; rewrite Hpath; reflexivity].
    + split; [split; reflexivity|]. split; [|eauto]. left.
      split; [reflexivity | simpl; rewrite Hpath; reflexivity].
  - cbn [ret outcome final emitted].
    split; [|split; [left; split;
                     [reflexivity | simpl; rewrite Hpath; reflexivity] | eauto]].
    destruct n; [congruence | split; reflexivity | split; reflexivity].
Qed.



End Cleanup.

(** * Runs on the scripted environment *)

Lemma hub_down_always_down : @always_down scripted hub_down.
Proof.
  exists (fun h => h = hub_down). split; [reflexivity|].
  intros h' kw ->. split; reflexivity.
Qed.

(** Three attempts against a hub that is down, five minutes apart. *)
Lemma loop_query_exhausts_retries_witness :
  let r := @loop_query scripted 0%nat 3 (Some 5) (demo_world hub_down ∅) in
  Z.of_nat (length (queries (emitted r))) = 3 /\
  Forall recoverable (answers (emitted r)) /\
  exists e, is_SentinelAPIError e = true /\
            last (answers (emitted r)) = Some (Raise e) /\
            outcome r = Raise e.
Proof.
  apply (@loop_query_exhausts_retries scripted 0%nat base_params 3 (Some 5)
           (demo_world hub_down ∅)).
  - lia.
  - reflexivity.
  - reflexivity.
  - exact hub_down_always_down.
Defined.

(** No timeout: one attempt out of the five allowed. *)
Lemma loop_query_without_timeout_tries_once_witness :
  @loop_query scripted 0%nat 5 None (demo_world hub_down ∅) =
    Run (Raise (SentinelAPIError "HTTP status 503"))
        (answered (demo_world hub_down ∅) base_params)
        [EvQuery base_params (Raise (SentinelAPIError "HTTP status 503"))].
Proof.
  apply (@loop_query_without_timeout_tries_once scripted 0%nat base_params 5 None
           (demo_world hub_down ∅) (SentinelAPIError "HTTP status 503")).
  - lia.
  - left. reflexivity.
  - reflexivity.
  - reflexivity.
  - reflexivity.
Defined.

Lemma loop_query_first_success_witness :
  @loop_query scripted 0%nat 5 (Some 5)
     (demo_world (hub_up [("A", meta "a.zip")]) ∅) =
    Run (Ok (Some [("A", meta "a.zip")]))
        (answered (demo_world (hub_up [("A", meta "a.zip")]) ∅) base_params)
        [EvQuery base_params (Ok [("A", meta "a.zip")])].
Proof.
  apply (@loop_query_first_success scripted 0%nat base_params 5 (Some 5)
           (demo_world (hub_up [("A", meta "a.zip")]) ∅) [("A", meta "a.zip")]).
  - lia.
  - reflexivity.
  - reflexivity.
Defined.

Lemma loop_query_propagates_other_errors_witness :
  @nil event = [] /\
  outcome (@loop_query scripted 0%nat 3 (Some 1) (demo_world flaky_then_broken ∅))
    = Raise (ValueError "bad query").
Proof.
  apply (@loop_query_propagates_other_errors scripted 0%nat 3 (Some 1)
           (demo_world flaky_then_broken ∅)
           (EvQuery base_params (Raise (SentinelAPIError "HTTP status 503"))
            :: waiting (SentinelAPIError "HTTP status 503") (Some 1))
           [] base_params (ValueError "bad query")).
  - reflexivity.
  - vm_compute. reflexivity.
Defined.

Lemma loop_query_no_attempt_returns_None_witness :
  @loop_query scripted 0%nat 0 (Some 5) (demo_world hub_down ∅) =
    Run (Ok None) (demo_world hub_down ∅) [].
Proof.
  apply (@loop_query_no_attempt_returns_None scripted 0%nat 0 (Some 5)
           (demo_world hub_down ∅)).
  lia.
Defined.

(** Tile 31TCJ on 2016-06-01, after a tile that has no date: the call
    logs the two tiles and raises. *)
Lemma query_tiles_dates_rejects_early_dates_witness :
  (let r := @query_tiles_dates_step scripted 0%nat no_loop_kwargs "31TCJ"
              [] "2016-06-01" (demo_world (hub_up []) ∅) in
   outcome r = Raise unsupported /\ emitted r = []) /\
  (let r := @query_tiles_dates scripted
              ([("32UNA", [])] ++ ("31TCJ", [] ++ "2016-06-01" :: ["2017-06-01"]) :: [])
              0%nat no_loop_kwargs (demo_world (hub_up []) ∅) in
   outcome r = Raise unsupported /\
   emitted r = [EvLog INFO "-- tile %s" [VStr "32UNA"];
                EvLog INFO "-- tile %s" [VStr "31TCJ"]]).
Proof.
  destruct (@query_tiles_dates_rejects_early_dates scripted 0%nat base_params
              no_loop_kwargs (demo_world (hub_up []) ∅) [("32UNA", [])] [] "31TCJ"
              [] ["2017-06-01"] "2016-06-01" (DateTime (datetime_ymd 2016 6 1) None)
              eq_refl eq_refl eq_refl eq_refl) as [Hstep Hcall].
  split.
  - apply Hstep. reflexivity.
  - exact (Hcall [] eq_refl).
Defined.

(** C3 as stated fails on a date with a time zone: midnight UTC of
    2016-06-01 is before 2016-11-01, yet line 70 cannot compare it with
    the naive constant and raises [TypeError]; the call ends with that
    error and not with the [ValueError] of the tile search. *)
Lemma early_aware_date_raises_TypeError :
  let start_date := DateTime (datetime_ymd 2016 6 1) (Some 0) in
  let w := @World scripted_utc {[ 0%nat := base_params ]} (hub_up []) ∅ in
  let r := @query_tiles_dates scripted_utc [("31TCJ", ["2016-06-01T00:00:00Z"])]
             0%nat no_loop_kwargs w in
  heap w !! 0%nat = Some base_params /\
  @dateutil_parse scripted_utc "2016-06-01T00:00:00Z" = Ok start_date /\
  naive_ltb (fields start_date) (datetime_ymd 2016 11 1) = true /\
  outcome r = Raise (TypeError "can't compare offset-naive and offset-aware datetimes") /\
  outcome r <> Raise unsupported /\
  outcome (@query_tiles_dates_step scripted_utc 0%nat no_loop_kwargs "31TCJ" []
             "2016-06-01T00:00:00Z" w) <> Raise unsupported.
Proof.
  cbn zeta. split; [reflexivity|]. split; [reflexivity|]. split; [reflexivity|].
  split; [vm_compute; reflexivity|].
  split; vm_compute; discriminate.
Qed.

(** Tile 31TCJ on 2017-01-15: the filename glob. *)
Lemma tile_filter_by_date_witness :
  let start_date := DateTime (datetime_ymd 2017 1 15) None in
  let end_date := DateTime (datetime_ymd 2017 1 16) None in
  let w := demo_world (hub_up []) ∅ in
  @tile_filter_set scripted 0%nat base_params "31TCJ" "2017-01-15" start_date w /\
  (let r := @tile_date_kwargs scripted 0%nat "31TCJ" "2017-01-15" w in
   exists kw, outcome r = Ok kw /\ heap w !! kw = None /\ emitted r = [] /\
              heap (final r) =
                <[kw := tile_params base_params "31TCJ" start_date end_date]> (heap w)) /\
  Forall (eq (tile_params base_params "31TCJ" start_date end_date))
    (queried (emitted (@query_tiles_dates_step scripted 0%nat no_loop_kwargs "31TCJ"
                         [] "2017-01-15" w))).
Proof.
  apply (@tile_filter_by_date scripted 0%nat base_params no_loop_kwargs "31TCJ"
           "2017-01-15" (DateTime (datetime_ymd 2017 1 15) None)
           (DateTime (datetime_ymd 2017 1 16) None) [] (demo_world (hub_up []) ∅)).
  - reflexivity.
  - reflexivity.
  - reflexivity.
  - reflexivity.
  - reflexivity.
Defined.

(** C4 as stated fails on the last day of the calendar: 9999-12-31 is on
    or after 2016-11-01, its next day is no datetime, line 68 raises
    [OverflowError] and no filter is set; the call of the aggregator
    raises that error without a query.  On a date with a time zone,
    midnight UTC of 2017-01-15, line 70 raises [TypeError] and no filter
    is set either.  And when the caller's mapping names a tile, the
    parameters of 2017-01-15 hold the glob and that tile id, both. *)
Lemma tile_filter_not_set_on_last_day :
  let start_date := DateTime (datetime_ymd 9999 12 31) None in
  let w := demo_world (hub_up []) ∅ in
  heap w !! 0%nat = Some base_params /\
  @dateutil_parse scripted "9999-12-31" = Ok start_date /\
  datetime_lt start_date (datetime_ymd 2016 11 1) = Ok false /\
  outcome (@tile_date_kwargs scripted 0%nat "31TCJ" "9999-12-31" w)
    = Raise (OverflowError "date value out of range") /\
  outcome (@query_tiles_dates scripted [("31TCJ", ["9999-12-31"])] 0%nat no_loop_kwargs w)
    = Raise (OverflowError "date value out of range") /\
  queries (emitted (@query_tiles_dates scripted [("31TCJ", ["9999-12-31"])] 0%nat
                      no_loop_kwargs w)) = [] /\
  ~ @tile_filter_set scripted 0%nat base_params "31TCJ" "9999-12-31" start_date w /\
  (let aware := DateTime (datetime_ymd 2017 1 15) (Some 0) in
   let wz := @World scripted_utc {[ 0%nat := base_params ]} (hub_up []) ∅ in
   @dateutil_parse scripted_utc "2017-01-15T00:00:00Z" = Ok aware /\
   naive_ltb (fields aware) (datetime_ymd 2016 11 1) = false /\
   add_one_day aware = Ok (DateTime (datetime_ymd 2017 1 16) (Some 0)) /\
   outcome (@tile_date_kwargs scripted_utc 0%nat "31TCJ" "2017-01-15T00:00:00Z" wz)
     = Raise (TypeError "can't compare offset-naive and offset-aware datetimes") /\
   ~ @tile_filter_set scripted_utc 0%nat base_params "31TCJ" "2017-01-15T00:00:00Z"
       aware wz) /\
  (fun kw => (kw !! "filename", kw !! "tileid")) <$>
    queried (emitted (@query_tiles_dates scripted [("31TCJ", ["2017-01-15"])] 0%nat
                        no_loop_kwargs
                        (@World scripted {[ 0%nat := tiled_params ]} (hub_up []) ∅)))
  = [(Some (VStr "*_T31TCJ_*"), Some (VStr "32UNA"))].
Proof.
  cbn zeta.
  assert (Hout : outcome (@tile_date_kwargs scripted 0%nat "31TCJ" "9999-12-31"
                            (demo_world (hub_up []) ∅))
                 = Raise (OverflowError "date value out of range")).
  { vm_compute. reflexivity. }
  split; [reflexivity|]. split; [reflexivity|]. split; [reflexivity|].
  split; [exact Hout|]. split; [vm_compute; reflexivity|].
  split; [vm_compute; reflexivity|].
  split; [|split; [|vm_compute; reflexivity]].
  - unfold tile_filter_set. cbn zeta. intros (kw & params & glob & Hok & _).
    rewrite Hout in Hok. discriminate.
  - assert (Hz : outcome (@tile_date_kwargs scripted_utc 0%nat "31TCJ"
                            "2017-01-15T00:00:00Z"
                            (@World scripted_utc {[ 0%nat := base_params ]} (hub_up []) ∅))
                 = Raise (TypeError "can't compare offset-naive and offset-aware datetimes")).
    { vm_compute. reflexivity. }
    split; [reflexivity|]. split; [reflexivity|]. split; [reflexivity|].
    split; [exact Hz|].
    unfold tile_filter_set. cbn zeta. intros (kw & params & glob & Hok & _).
    rewrite Hz in Hok. discriminate.
Qed.

Lemma aggregators_keep_base_params_witness :
  let w := demo_world (hub_up [("A", meta "a.zip")]) ∅ in
  let d := base_params in
  (let r := @query_tiles_dates scripted [("31TCJ", ["2017-01-15"; "2017-06-01"])]
              0%nat no_loop_kwargs w in
   heap (final r) !! 0%nat = Some d /\
   Forall (fun kw => exists tile ds date start_date end_date,
               (tile, ds) ∈ [("31TCJ", ["2017-01-15"; "2017-06-01"])] /\ date ∈ ds /\
               @dateutil_parse scripted date = Ok start_date /\
               add_one_day start_date = Ok end_date /\
               kw = tile_params d tile start_date end_date)
          (queried (emitted r))) /\
  (let r := @query_dates scripted ["2017-01-15"] 0%nat no_loop_kwargs w in
   heap (final r) !! 0%nat = Some d /\
   Forall (fun kw => exists date start_date end_date,
               date ∈ ["2017-01-15"] /\
               @dateutil_parse scripted date = Ok start_date /\
               add_one_day start_date = Ok end_date /\
               kw = date_params d start_date end_date)
          (queried (emitted r))) /\
  (let r := @query_rel_orbit_numbers scripted [8; 51] 0%nat no_loop_kwargs w in
   heap (final r) !! 0%nat = Some d /\
   Forall (fun kw => exists ron, ron ∈ [8; 51] /\ kw = orbit_params d ron)
          (queried (emitted r))).
Proof.
  apply (@aggregators_keep_base_params scripted 0%nat base_params no_loop_kwargs
           (demo_world (hub_up [("A", meta "a.zip")]) ∅)
           [("31TCJ", ["2017-01-15"; "2017-06-01"])] ["2017-01-15"] [8; 51]).
  reflexivity.
Defined.

(** ** The examples of the specification *)

(** Tile 31TCJ: the glob on 2017-01-15, the tile id on 2017-06-01, and the
    caller's mapping as it was. *)
Example query_tiles_dates_31TCJ :
  let r := @query_tiles_dates scripted [("31TCJ", ["2017-01-15"; "2017-06-01"])]
             0%nat no_loop_kwargs (demo_world (hub_up [("A", meta "a.zip")]) ∅) in
  outcome r = Ok [("A", meta "a.zip")] /\
  (fun kw => (kw !! "filename", kw !! "tileid")) <$> queried (emitted r) =
    [(Some (VStr "*_T31TCJ_*"), None); (None, Some (VStr "31TCJ"))] /\
  heap (final r) !! 0%nat = Some base_params.
Proof. vm_compute. repeat split. Qed.

Example query_tiles_dates_31TCJ_early :
  let r := @query_tiles_dates scripted [("31TCJ", ["2016-06-01"])]
             0%nat no_loop_kwargs (demo_world (hub_up [("A", meta "a.zip")]) ∅) in
  outcome r = Raise unsupported /\ queries (emitted r) = [].
Proof. vm_compute. repeat split. Qed.

Example query_rel_orbit_numbers_8_51 :
  let r := @query_rel_orbit_numbers scripted [8; 51] 0%nat no_loop_kwargs
             (demo_world (hub_up [("A", meta "a.zip")]) ∅) in
  (fun kw => kw !! "relativeorbitnumber") <$> queried (emitted r) =
    [Some (VStr "8"); Some (VStr "51")].
Proof. vm_compute. reflexivity. Qed.

(** With [max_retries = 0] the aggregators fail on the [None] they get. *)
Example query_dates_without_attempt :
  let r := @query_dates scripted ["2017-01-15"] 0%nat (LoopKwargs (Some 0) None)
             (demo_world (hub_up []) ∅) in
  outcome r = Raise (TypeError "object of type 'NoneType' has no len()") /\
  emitted r = [].
Proof. vm_compute. repeat split. Qed.

(** Of the three downloads the two empty ones are removed or tried, the
    one that resists leaves a warning, the call returns. *)
Example delete_empty_downloads :
  let r := @delete_empty scripted downloaded (demo_world hub_down downloads) in
  outcome r = Ok tt /\
  removals (emitted r) = ["empty.zip"; "locked.zip"] /\
  failed_removals (emitted r) = ["locked.zip"] /\
  warnings (emitted r) = [[VStr "locked.zip"]] /\
  disk (final r) = delete "empty.zip" downloads.
Proof. vm_compute. repeat split. Qed.

(** An entry whose file is gone stops the run at the size read. *)
Example delete_empty_twice :
  let r := @delete_empty scripted [("A", meta "empty.zip"); ("B", meta "empty.zip")]
             (demo_world hub_down downloads) in
  outcome r = Raise (OSError "No such file or directory") /\
  removals (emitted r) = ["empty.zip"].
Proof. vm_compute. repeat split. Qed.

(** * Further properties *)

(** ** Sleeping *)

Lemma total_sleep_app (a b : list event) :
  total_sleep (a ++ b) = total_sleep a + total_sleep b.
Proof.
  induction a as [|e a IH]; simpl; [reflexivity|].
  destruct e; rewrite ?IH; lia.
Qed.

Lemma total_sleep_replicate (n : nat) (s : Z) :
  total_sleep (replicate n (EvSleep s)) = Z.of_nat n * s.
Proof. induction n as [|n IH]; simpl replicate; simpl total_sleep; [|rewrite IH]; lia. Qed.

Lemma total_sleep_waiting (err : exn) (t : option Z) :
  total_sleep (waiting err t) = 60 * Z.max 0 (default 0 t).
Proof.
  unfold waiting. change (total_sleep (?e :: ?l)) with (total_sleep l).
  rewrite total_sleep_replicate. lia.
Qed.

Lemma total_sleep_failed_attempt kw t err :
  total_sleep (failed_attempt kw t err) = 60 * Z.max 0 (default 0 t).
Proof. rewrite <- (total_sleep_waiting err t). reflexivity. Qed.

Lemma queries_failed_attempt kw t err :
  queries (failed_attempt kw t err) = [EvQuery kw (Raise err)].
Proof.
  unfold failed_attempt.
  change (queries (?q :: ?l)) with (q :: queries l) at 1.
  rewrite queries_waiting. reflexivity.
Qed.

Lemma total_sleep_failed_attempts kw t (es : list exn) :
  total_sleep (concat (failed_attempt kw t <$> es)) =
    Z.of_nat (length es) * (60 * Z.max 0 (default 0 t)).
Proof.
  induction es as [|e es IH]; [reflexivity|].
  change (concat (failed_attempt kw t <$> e :: es))
    with (failed_attempt kw t e ++ concat (failed_attempt kw t <$> es)).
  rewrite total_sleep_app, total_sleep_failed_attempt, IH. simpl length. lia.
Qed.

Lemma queries_failed_attempts kw t (es : list exn) :
  queries (concat (failed_attempt kw t <$> es)) = (fun e => EvQuery kw (Raise e)) <$> es.
Proof.
  induction es as [|e es IH]; [reflexivity|].
  change (concat (failed_attempt kw t <$> e :: es))
    with (failed_attempt kw t e ++ concat (failed_attempt kw t <$> es)).
  rewrite queries_app, queries_failed_attempt, IH. reflexivity.
Qed.

Lemma last_failed_attempt kw (t : Z) err :
  0 < t -> last (failed_attempt kw (Some t) err) = Some (EvSleep 10).
Proof.
  intros Ht. unfold failed_attempt, waiting.
  change (default 0 (Some t)) with t.
  destruct (Z.to_nat (t * 6)) as [|m] eqn:Hm; [lia|].
  rewrite replicate_S_end, !app_comm_cons. apply last_snoc.
Qed.

Section RetryFurther.
Context `{Ext : Externals}.

(** ** One iteration of loop_query, all cases *)

Lemma loop_query_from_cases (n : nat) (l : loc) (t : option Z) (err : option exn)
    (w : world) :
  let r := loop_query_from (S n) l t err w in
  (heap w !! l = None /\ r = Run (Raise (SystemError "dangling reference")) w []) \/
  (exists kw pp, heap w !! l = Some kw /\
     r = Run (Ok (Some pp)) (answered w kw) [EvQuery kw (Ok pp)]) \/
  (exists kw e, heap w !! l = Some kw /\
     (is_SentinelAPIError e = false \/ truthy t = false) /\
     r = Run (Raise e) (answered w kw) [EvQuery kw (Raise e)]) \/
  (exists kw e, heap w !! l = Some kw /\
     is_SentinelAPIError e = true /\ truthy t = true /\
     let r' := loop_query_from n l t (Some e) (answered w kw) in
     r = Run (outcome r') (final r') (failed_attempt kw t e ++ emitted r')).
Proof.
  cbn zeta.
  destruct (heap w !! l) as [kw|] eqn:Hkw.
  2:{ left. split; [reflexivity|]. apply loop_query_from_dangling, Hkw. }
  right. destruct (api_query (hub w) kw).2 as [pp|e] eqn:Hq.
  { left. exists kw, pp. split; [reflexivity|].
    apply loop_query_from_returns; assumption. }
  right. destruct (is_SentinelAPIError e) eqn:He.
  2:{ left. exists kw, e. split; [reflexivity|]. split; [left; exact He|].
      apply loop_query_from_propagates; assumption. }
  destruct (truthy t) eqn:Ht.
  2:{ left. exists kw, e. split; [reflexivity|]. split; [right; reflexivity|].
      apply loop_query_from_breaks; assumption. }
  right. exists kw, e. split; [reflexivity|]. split; [exact He|].
  split; [reflexivity|].
  exact (loop_query_from_retries n l kw t err w e Hkw Hq He Ht).
Qed.

(** ** Retries that end well *)

Lemma loop_query_from_recovers (l : loc) (kw : kwargs) (pp : product_map)
    (t : option Z) :
  truthy t = true ->
  forall (k n : nat) (err : option exn) (w : world),
    (k < n)%nat ->
    heap w !! l = Some kw ->
    fails_then_answers k (hub w) kw pp ->
    let r := loop_query_from n l t err w in
    outcome r = Ok (Some pp) /\
    exists es, length es = k /\
               Forall (fun e => is_SentinelAPIError e = true) es /\
               emitted r = concat (failed_attempt kw t <$> es) ++ [EvQuery kw (Ok pp)].
Proof.
  intros Ht k. induction k as [|k IH]; intros n err w Hkn Hkw Hhub; cbn zeta.
  - destruct n as [|n]; [lia|]. simpl in Hhub.
    rewrite (loop_query_from_returns _ _ _ _ _ _ _ Hkw Hhub).
    split; [reflexivity|]. exists []. repeat split. constructor.
  - destruct n as [|n]; [lia|]. destruct Hhub as [Hrec Hnext].
    destruct (api_query (hub w) kw).2 as [?|e] eqn:Hq; [contradiction|].
    simpl in Hrec.
    rewrite (loop_query_from_retries n l kw t err w e Hkw Hq Hrec Ht).
    cbn [outcome final emitted].
    destruct (IH n (Some e) (answered w kw)) as (Hout & es & Hlen & Hall & Hev);
      [lia | exact Hkw | exact Hnext |].
    split; [exact Hout|]. exists (e :: es).
    split; [simpl; congruence|]. split; [constructor; assumption|].
    rewrite Hev.
    change (concat (failed_attempt kw t <$> e :: es))
      with (failed_attempt kw t e ++ concat (failed_attempt kw t <$> es)).
    rewrite <- app_assoc. reflexivity.
Qed.

(** X1.  When the hub raises the recoverable error on the first [k] calls
    and answers the next one, and [k] is below [max_retries], [loop_query]
    with a timeout that is not zero returns the products of that answer
    after [k + 1] calls; before the answer the run is [k] failed attempts,
    each followed by its log record and its wait, and the time slept is
    [k] times sixty seconds per minute of timeout (none when the timeout
    is negative). *)
Theorem loop_query_retries_until_answer
    (query_kwargs : loc) (kw : kwargs) (pp : product_map) (max_retries t : Z)
    (k : nat) (w : world) :
  Z.of_nat k < max_retries ->
  t <> 0 ->
  heap w !! query_kwargs = Some kw ->
  fails_then_answers k (hub w) kw pp ->
  let r := loop_query query_kwargs max_retries (Some t) w in
  outcome r = Ok (Some pp) /\
  (exists es, length es = k /\
              emitted r = concat (failed_attempt kw (Some t) <$> es)
                            ++ [EvQuery kw (Ok pp)]) /\
  length (queries (emitted r)) = S k /\
  total_sleep (emitted r) = Z.of_nat k * (60 * Z.max 0 t).
Proof.
  intros Hk Ht Hkw Hhub. cbn zeta. unfold loop_query.
  assert (Htruthy : truthy (Some t) = true).
  { simpl. destruct (Z.eqb_spec t 0); [contradiction | reflexivity]. }
  destruct (loop_query_from_recovers query_kwargs kw pp (Some t) Htruthy k
              (Z.to_nat max_retries) None w ltac:(lia) Hkw Hhub)
    as (Hout & es & Hlen & _ & Hev).
  split; [exact Hout|]. split; [exists es; split; assumption|].
  rewrite Hev, queries_app, total_sleep_app, queries_failed_attempts,
    total_sleep_failed_attempts, length_app, length_fmap, Hlen.
  simpl. split; lia.
Qed.

(** ** Retries that all fail *)

Lemma loop_query_from_all_fail (l : loc) (kw : kwargs) (t : option Z) :
  truthy t = true ->
  forall (n : nat) (err : option exn) (w : world),
    heap w !! l = Some kw ->
    always_down (hub w) ->
    exists es, length es = n /\
               emitted (loop_query_from n l t err w) = concat (failed_attempt kw t <$> es).
Proof.
  intros Ht n. induction n as [|n IH]; intros err w Hkw Hdown.
  - exists []. split; [reflexivity|]. destruct err; reflexivity.
  - destruct Hdown as (Inv & Hh & Hstep).
    destruct (Hstep _ kw Hh) as [Hrec Hnext].
    destruct (api_query (hub w) kw).2 as [?|e] eqn:Hq; [contradiction|].
    simpl in Hrec.
    rewrite (loop_query_from_retries n l kw t err w e Hkw Hq Hrec Ht).
    cbn [emitted].
    destruct (IH (Some e) (answered w kw) Hkw) as (es & Hlen & Hev).
    { exists Inv. split; [exact Hnext | exact Hstep]. }
    exists (e :: es). split; [simpl; congruence|]. rewrite Hev. reflexivity.
Qed.

(** X2.  When every call raises the recoverable error and the timeout is
    positive, [loop_query] waits after every attempt, the last one
    included: the run is [max_retries] failed attempts, each followed by
    its log record and its full wait, its last event is a sleep, and the
    time slept is [max_retries] times the timeout. *)
Theorem loop_query_waits_after_last_attempt
    (query_kwargs : loc) (kw : kwargs) (max_retries t : Z) (w : world) :
  1 <= max_retries ->
  0 < t ->
  heap w !! query_kwargs = Some kw ->
  always_down (hub w) ->
  let r := loop_query query_kwargs max_retries (Some t) w in
  (exists es, Z.of_nat (length es) = max_retries /\
              emitted r = concat (failed_attempt kw (Some t) <$> es)) /\
  last (emitted r) = Some (EvSleep 10) /\
  total_sleep (emitted r) = max_retries * (60 * t).
Proof.
  intros HN Ht Hkw Hdown. cbn zeta. unfold loop_query.
  assert (Htruthy : truthy (Some t) = true).
  { simpl. destruct (Z.eqb_spec t 0); [lia | reflexivity]. }
  destruct (loop_query_from_all_fail query_kwargs kw (Some t) Htruthy
              (Z.to_nat max_retries) None w Hkw Hdown) as (es & Hlen & Hev).
  rewrite Hev. split; [exists es; split; [lia | reflexivity]|]. split.
  - clear Hev. induction es as [|e es' _] using rev_ind; [simpl in Hlen; lia|].
    rewrite fmap_app, concat_app, last_app.
    change (concat (failed_attempt kw (Some t) <$> [e]))
      with (failed_attempt kw (Some t) e ++ []).
    rewrite app_nil_r, (last_failed_attempt kw t e Ht). reflexivity.
  - rewrite total_sleep_failed_attempts. simpl default. lia.
Qed.

(** ** Bounds *)

(** X3.  Whatever the hub does, [loop_query] calls [api.query] at most
    [max_retries] times, every sleep is one of ten seconds, and the time
    slept is at most one timeout per call made. *)
Theorem loop_query_attempts_bounded
    (query_kwargs : loc) (max_retries : Z) (timeout_minutes : option Z) (w : world) :
  let r := loop_query query_kwargs max_retries timeout_minutes w in
  (length (queries (emitted r)) <= Z.to_nat max_retries)%nat /\
  Forall (fun e => e = EvSleep 10) (sleeps (emitted r)) /\
  0 <= total_sleep (emitted r) <=
    Z.of_nat (length (queries (emitted r))) * (60 * Z.max 0 (default 0 timeout_minutes)).
Proof.
  cbn zeta. unfold loop_query.
  generalize (Z.to_nat max_retries) (@None exn). intros n. revert w.
  induction n as [|n IH]; intros w err.
  - destruct err; simpl; repeat split; try constructor; lia.
  - destruct (loop_query_from_cases n query_kwargs timeout_minutes err w)
      as [[_ ->]|[(kw & pp & _ & ->)|[(kw & e & _ & _ & ->)|(kw & e & _ & _ & _ & ->)]]];
      cbn [emitted];
      try (split; [cbn; lia|]; split; [constructor|];
           cbn [queries total_sleep List.filter is_query foldr length]; lia).
    destruct (IH (answered w kw) (Some e)) as (Hq & Hs & Ht).
    rewrite queries_app, sleeps_app, total_sleep_app, length_app,
      queries_failed_attempt, total_sleep_failed_attempt.
    split; [simpl; lia|]. split; [|simpl length; lia].
    apply Forall_app. split; [|exact Hs].
    unfold failed_attempt, waiting, sleeps. simpl.
    induction (Z.to_nat _) as [|m IHm]; simpl; constructor; auto.
Qed.

End RetryFurther.

Section RetryOutcome.
Context `{Ext : Externals}.

Lemma loop_query_from_not_None_after_error (l : loc) (t : option Z) (n : nat) :
  forall (e : exn) (w : world),
    outcome (loop_query_from n l t (Some e) w) <> Ok None.
Proof.
  induction n as [|n IH]; intros e w; [discriminate|].
  destruct (loop_query_from_cases n l t (Some e) w)
    as [[_ ->]|[(kw & pp & _ & ->)|[(kw & e' & _ & _ & ->)|(kw & e' & _ & _ & _ & ->)]]];
    cbn [outcome]; try discriminate.
  apply IH.
Qed.

(** X4.  [loop_query] returns [None] only when it makes no attempt: with
    [max_retries >= 1] a call either returns the products of a call of
    [api.query] or raises, and with [max_retries <= 0] it returns [None]. *)
Theorem loop_query_None_iff_no_attempt
    (query_kwargs : loc) (max_retries : Z) (timeout_minutes : option Z) (w : world) :
  outcome (loop_query query_kwargs max_retries timeout_minutes w) = Ok None
  <-> max_retries <= 0.
Proof.
  unfold loop_query. split.
  - intros Hnone. destruct (Z.to_nat max_retries) as [|n] eqn:Hn; [lia|].
    exfalso.
    destruct (loop_query_from_cases n query_kwargs timeout_minutes None w)
      as [[_ Hr]|[(kw & pp & _ & Hr)|[(kw & e & _ & _ & Hr)|(kw & e & _ & _ & _ & Hr)]]];
      rewrite Hr in Hnone; cbn [outcome] in Hnone; try discriminate.
    exact (loop_query_from_not_None_after_error _ _ _ _ _ Hnone).
  - intros HN. replace (Z.to_nat max_retries) with 0%nat by lia. reflexivity.
Qed.

Lemma cleanup_free_waiting err t :
  removals (waiting err t) = [] /\ inspections (waiting err t) = [] /\
  warnings (waiting err t) = [].
Proof.
  unfold waiting, removals, inspections, warnings. simpl.
  induction (Z.to_nat _) as [|n IH]; [auto | exact IH].
Qed.

(** X5.  [loop_query] changes no dict object and no file: the heap and
    the file system after the call are those before it, every call of
    [api.query] was given the items of the dict at [query_kwargs], and the
    run has no file-system event and no warning. *)
Theorem loop_query_changes_only_the_hub
    (query_kwargs : loc) (max_retries : Z) (timeout_minutes : option Z) (w : world) :
  let r := loop_query query_kwargs max_retries timeout_minutes w in
  heap (final r) = heap w /\
  disk (final r) = disk w /\
  Forall (fun kw => heap w !! query_kwargs = Some kw) (queried (emitted r)) /\
  removals (emitted r) = [] /\
  inspections (emitted r) = [] /\
  warnings (emitted r) = [].
Proof.
  cbn zeta. unfold loop_query.
  destruct (loop_query_from_frame (Z.to_nat max_retries) query_kwargs
              timeout_minutes None w) as (Hheap & Hdisk & Hkws & _).
  split; [exact Hheap|]. split; [exact Hdisk|]. split; [exact Hkws|].
  clear Hheap Hdisk Hkws.
  generalize (Z.to_nat max_retries) (@None exn). intros n. revert w.
  induction n as [|n IH]; intros w err.
  - destruct err; simpl; auto.
  - destruct (loop_query_from_cases n query_kwargs timeout_minutes err w)
      as [[_ ->]|[(kw & pp & _ & ->)|[(kw & e & _ & _ & ->)|(kw & e & _ & _ & _ & ->)]]];
      cbn [emitted]; try (simpl; auto; fail).
    destruct (IH (answered w kw) (Some e)) as (H1 & H2 & H3).
    destruct (cleanup_free_waiting e timeout_minutes) as (W1 & W2 & W3).
    change (failed_attempt kw timeout_minutes e)
      with ([EvQuery kw (Raise e)] ++ waiting e timeout_minutes).
    unfold removals, inspections, warnings in *.
    rewrite !omap_app, H1, H2, H3, W1, W2, W3. auto.
Qed.

End RetryOutcome.

Section AnsweredRuns.
Context `{Ext : Externals}.

(** ** Aggregators against a hub that answers *)

Lemma always_up_step (h : Hub) (kw : kwargs) :
  always_up h ->
  exists pp, (api_query h kw).2 = Ok pp /\ always_up (api_query h kw).1.
Proof.
  intros (Inv & Hh & Hstep). destruct (Hstep h kw Hh) as [[pp Hpp] Hnext].
  exists pp. split; [exact Hpp|]. exists Inv. split; [exact Hnext | exact Hstep].
Qed.

Lemma loop_query_with_answered (l : loc) (kw : kwargs) (lk : loop_kwargs) (w : world) :
  1 <= attempts lk ->
  heap w !! l = Some kw ->
  always_up (hub w) ->
  exists pp,
    loop_query_with l lk w = Run (Ok (Some pp)) (answered w kw) (answered_call kw pp) /\
    always_up (hub (answered w kw)).
Proof.
  intros Hn Hkw Hup. destruct (always_up_step _ kw Hup) as (pp & Hpp & Hnext).
  exists pp. split; [|exact Hnext].
  unfold loop_query_with, loop_query. unfold attempts in Hn.
  destruct (Z.to_nat (default 5 (lk_max_retries lk))) as [|n] eqn:Hnat; [lia|].
  apply loop_query_from_returns; assumption.
Qed.

Lemma query_merge_answered (kw : loc) (params : kwargs) (lk : loop_kwargs)
    (acc : product_map) (w : world) :
  1 <= attempts lk ->
  heap w !! kw = Some params ->
  always_up (hub w) ->
  exists pp,
    (pp <- loop_query_with kw lk ;; products_update acc pp) w =
      Run (Ok (od_update acc pp)) (answered w params) (answered_call params pp) /\
    always_up (hub (answered w params)).
Proof.
  intros Hn Hkw Hup.
  destruct (loop_query_with_answered kw params lk w Hn Hkw Hup) as (pp & Hrun & Hnext).
  exists pp. split; [|exact Hnext].
  rewrite (bind_ok _ _ _ _ _ _ Hrun). reflexivity.
Qed.

Lemma query_log_merge_answered (kw : loc) (params : kwargs) (lk : loop_kwargs)
    (acc : product_map) (date : string) (w : world) :
  1 <= attempts lk ->
  heap w !! kw = Some params ->
  always_up (hub w) ->
  exists pp,
    (pp <- loop_query_with kw lk ;;
     n <- len pp ;;
     logger_info "   -- date %s (%d)" [VStr date; VInt n] ;;;
     products_update acc pp) w =
      Run (Ok (od_update acc pp)) (answered w params) (answered_date params date pp) /\
    always_up (hub (answered w params)).
Proof.
  intros Hn Hkw Hup.
  destruct (loop_query_with_answered kw params lk w Hn Hkw Hup) as (pp & Hrun & Hnext).
  exists pp. split; [|exact Hnext].
  rewrite (bind_ok _ _ _ _ _ _ Hrun). reflexivity.
Qed.

(** A loop of answered iterations. *)
Lemma for_each_answered {X} (query_kwargs : loc) (d : kwargs)
    (good : X -> Prop) (P : X -> list event -> Prop)
    (step : product_map -> X -> M product_map) :
  iteration_answered query_kwargs d good P step ->
  forall (xs : list X) (acc : product_map) (w : world),
    Forall good xs ->
    heap w !! query_kwargs = Some d ->
    always_up (hub w) ->
    let r := for_each xs step acc w in
    heap (final r) !! query_kwargs = Some d /\
    always_up (hub (final r)) /\
    (exists evss, Forall2 P xs evss /\ emitted r = concat evss) /\
    outcome r = Ok (merge_all acc (successes (emitted r))).
Proof.
  intros Hstep xs. induction xs as [|x xs IH]; intros acc w Hgood Hd Hup; cbn zeta.
  - simpl. repeat split; try assumption. exists []. split; [constructor | reflexivity].
  - apply Forall_cons in Hgood as [Hx Hxs].
    destruct (Hstep acc x w Hx Hd Hup) as (Hd1 & Hup1 & HP1 & Hout1).
    simpl for_each.
    rewrite (bind_ok _ _ _ _ _ _
               (eq_trans (run_eta (step acc x w))
                  (f_equal (fun o => Run o _ _) Hout1))).
    cbn [outcome final emitted].
    destruct (IH (merge_all acc (successes (emitted (step acc x w))))
                (final (step acc x w)) Hxs Hd1 Hup1)
      as (Hd2 & Hup2 & (evss & HP2 & Hev2) & Hout2).
    split; [exact Hd2|]. split; [exact Hup2|]. split.
    + exists (emitted (step acc x w) :: evss).
      split; [constructor; assumption|]. simpl. rewrite Hev2. reflexivity.
    + rewrite Hout2, successes_app, merge_all_app. reflexivity.
Qed.

Lemma query_rel_orbit_numbers_step_answered (query_kwargs : loc) (d : kwargs)
    (lk : loop_kwargs) :
  1 <= attempts lk ->
  iteration_answered query_kwargs d (fun _ => True)
    (fun ron evs => exists pp, evs = answered_call (orbit_params d ron) pp)
    (query_rel_orbit_numbers_step query_kwargs lk).
Proof.
  intros Hn acc ron w _ Hd Hup. cbn zeta. unfold query_rel_orbit_numbers_step.
  rewrite (bind_ok_silent _ _ _ _ _ (dict_copy_run _ _ _ Hd)).
  set (kw := fresh (dom (heap w))).
  erewrite bind_ok_silent by (apply (dict_setitem_run kw d); apply lookup_insert_eq).
  cbn [with_heap heap hub disk]. rewrite insert_insert_eq.
  destruct (query_merge_answered kw (orbit_params d ron) lk acc
              (World (<[kw := orbit_params d ron]> (heap w)) (hub w) (disk w)) Hn)
    as (pp & Hrun & Hnext); [apply lookup_insert_eq | exact Hup |].
  change (<["relativeorbitnumber" := VStr (pretty ron)]> d) with (orbit_params d ron).
  unfold with_heap. cbn [heap hub disk].
  rewrite Hrun. cbn [outcome final emitted].
  split; [|split; [exact Hnext|split; [exists pp; reflexivity | reflexivity]]].
  cbn [answered heap]. rewrite lookup_insert_ne; [exact Hd|].
  apply copy_is_not_base with d, Hd.
Qed.

Lemma query_dates_step_answered (query_kwargs : loc) (d : kwargs) (lk : loop_kwargs) :
  1 <= attempts lk ->
  iteration_answered query_kwargs d
    (fun date => exists s e, usable_date date s e)
    (fun date evs => exists s e pp,
         usable_date date s e /\ evs = answered_date (date_params d s e) date pp)
    (query_dates_step query_kwargs lk).
Proof.
  intros Hn acc date w (s & e & Hparse & Hend) Hd Hup. cbn zeta.
  unfold query_dates_step.
  rewrite (bind_ok_silent _ _ _ _ _ (dict_copy_run _ _ _ Hd)).
  set (kw := fresh (dom (heap w))).
  pose proof (set_date_run kw d date (with_heap w (<[kw := d]> (heap w)))
                (lookup_insert_eq _ _ _)) as Hset.
  rewrite Hparse, Hend in Hset.
  cbn [with_heap heap hub disk] in Hset. rewrite insert_insert_eq in Hset.
  rewrite (bind_ok_silent _ _ _ _ _ Hset).
  destruct (query_log_merge_answered kw (date_params d s e) lk acc date
              (World (<[kw := date_params d s e]> (heap w)) (hub w) (disk w)) Hn)
    as (pp & Hrun & Hnext); [apply lookup_insert_eq | exact Hup |].
  unfold with_heap. cbn [heap hub disk]. rewrite Hrun. cbn [outcome final emitted].
  split; [|split; [exact Hnext|split; [|reflexivity]]].
  - cbn [answered heap]. rewrite lookup_insert_ne; [exact Hd|].
    apply copy_is_not_base with d, Hd.
  - exists s, e, pp. split; [split; assumption | reflexivity].
Qed.

Lemma query_tiles_dates_step_answered (query_kwargs : loc) (d : kwargs)
    (lk : loop_kwargs) (tile : string) :
  1 <= attempts lk ->
  iteration_answered query_kwargs d
    (fun date => exists s e, usable_date date s e /\
                             datetime_lt s (datetime_ymd 2016 11 1) = Ok false)
    (fun date evs => exists s e pp,
         usable_date date s e /\ evs = answered_date (tile_params d tile s e) date pp)
    (query_tiles_dates_step query_kwargs lk tile).
Proof.
  intros Hn acc date w (s & e & [Hparse Hend] & Hlate) Hd Hup. cbn zeta.
  unfold query_tiles_dates_step.
  pose proof (tile_date_kwargs_run query_kwargs d tile date w Hd) as Hkw.
  cbn zeta in Hkw. rewrite Hparse, Hend, Hlate in Hkw.
  set (kw := fresh (dom (heap w))) in *.
  rewrite (bind_ok_silent _ _ _ _ _ Hkw).
  destruct (query_log_merge_answered kw (tile_params d tile s e) lk acc date
              (with_heap w (<[kw := tile_params d tile s e]> (heap w))) Hn)
    as (pp & Hrun & Hnext); [apply lookup_insert_eq | exact Hup |].
  rewrite Hrun. cbn [outcome final emitted].
  split; [|split; [exact Hnext|split; [|reflexivity]]].
  - cbn [answered with_heap heap]. rewrite lookup_insert_ne; [exact Hd|].
    apply copy_is_not_base with d, Hd.
  - exists s, e, pp. split; [split; assumption | reflexivity].
Qed.

End AnsweredRuns.

Lemma one_query_each {X} (Q : X -> kwargs -> Prop) (xs : list X)
    (evss : list (list event)) :
  Forall2 (fun x evs => (exists kw, Q x kw /\ queried evs = [kw]) /\
                        sleeps evs = [] /\ length (successes evs) = 1%nat) xs evss ->
  Forall2 Q xs (queried (concat evss)) /\
  sleeps (concat evss) = [] /\
  length (successes (concat evss)) = length xs.
Proof.
  induction 1 as [|x evs xs evss ((kw & HQ & Hkw) & Hsl & Hsu) _ (IH1 & IH2 & IH3)].
  - repeat split. constructor.
  - rewrite concat_cons.
    rewrite queried_app, sleeps_app, successes_app, length_app, Hkw, Hsl, Hsu, IH2, IH3.
    repeat split. constructor; assumption.
Qed.

Section AnsweredAggregators.
Context `{Ext : Externals}.

(** X6.  Against a hub that answers and with [max_retries >= 1],
    [query_rel_orbit_numbers] calls [api.query] once per orbit number, in
    order, each time with the caller's parameters and
    ['relativeorbitnumber'] set to the text of the number; the run has no
    other event, and the call returns the merge of the answers. *)
Theorem query_rel_orbit_numbers_answered
    (query_kwargs : loc) (d : kwargs) (lk : loop_kwargs)
    (rel_orbit_numbers : list Z) (w : world) :
  1 <= attempts lk ->
  heap w !! query_kwargs = Some d ->
  always_up (hub w) ->
  let r := query_rel_orbit_numbers rel_orbit_numbers query_kwargs lk w in
  queried (emitted r) = orbit_params d <$> rel_orbit_numbers /\
  emitted r = queries (emitted r) /\
  length (successes (emitted r)) = length rel_orbit_numbers /\
  outcome r = Ok (merge_all [] (successes (emitted r))).
Proof.
  intros Hn Hd Hup. cbn zeta. unfold query_rel_orbit_numbers.
  destruct (for_each_answered _ _ _ _ _
              (query_rel_orbit_numbers_step_answered query_kwargs d lk Hn)
              rel_orbit_numbers [] w) as (_ & _ & (evss & HP & Hev) & Hout);
    [apply Forall_true; auto | exact Hd | exact Hup |].
  split; [|split; [|split; [|exact Hout]]]; rewrite Hev; clear Hev Hout.
  - induction HP as [|ron evs rons evss [pp ->] _ IH]; [reflexivity|].
    rewrite concat_cons. rewrite queried_app, IH. reflexivity.
  - induction HP as [|ron evs rons evss [pp ->] _ IH]; [reflexivity|].
    rewrite concat_cons. rewrite queries_app, <- IH. reflexivity.
  - induction HP as [|ron evs rons evss [pp ->] _ IH]; [reflexivity|].
    rewrite concat_cons. rewrite successes_app, length_app, IH. reflexivity.
Qed.

(** X7.  Against a hub that answers and with [max_retries >= 1],
    [query_dates] on dates that parse and have a next day calls
    [api.query] once per date, in order, with the caller's parameters and
    ['date'] set to the day and its next day; it never sleeps, and returns
    the merge of the answers. *)
Theorem query_dates_answered
    (query_kwargs : loc) (d : kwargs) (lk : loop_kwargs)
    (dates : list string) (w : world) :
  1 <= attempts lk ->
  heap w !! query_kwargs = Some d ->
  always_up (hub w) ->
  Forall (fun date => exists s e, usable_date date s e) dates ->
  let r := query_dates dates query_kwargs lk w in
  Forall2 (fun date kw => exists s e, usable_date date s e /\ kw = date_params d s e)
    dates (queried (emitted r)) /\
  sleeps (emitted r) = [] /\
  length (successes (emitted r)) = length dates /\
  outcome r = Ok (merge_all [] (successes (emitted r))).
Proof.
  intros Hn Hd Hup Hdates. cbn zeta. unfold query_dates.
  destruct (for_each_answered _ _ _ _ _
              (query_dates_step_answered query_kwargs d lk Hn) dates [] w Hdates Hd Hup)
    as (_ & _ & (evss & HP & Hev) & Hout).
  rewrite Hev in *.
  destruct (one_query_each
              (fun date kw => exists s e, usable_date date s e /\ kw = date_params d s e)
              dates evss) as (H1 & H2 & H3).
  { eapply Forall2_impl; [exact HP|].
    intros date evs (s & e & pp & Huse & ->). split; [|split; reflexivity].
    exists (date_params d s e). split; [eauto | reflexivity]. }
  auto.
Qed.

(** The body of the outer loop of [query_tiles_dates], answered. *)
Lemma query_tiles_dates_tile_answered (query_kwargs : loc) (d : kwargs)
    (lk : loop_kwargs) :
  1 <= attempts lk ->
  iteration_answered query_kwargs d
    (fun td : string * list string =>
       Forall (fun date => exists s e, usable_date date s e /\
                   datetime_lt s (datetime_ymd 2016 11 1) = Ok false) td.2)
    (fun td evs =>
       Forall2 (fun date kw => exists s e, usable_date date s e /\
                                           kw = tile_params d td.1 s e)
         td.2 (queried evs) /\
       sleeps evs = [] /\ length (successes evs) = length td.2)
    (fun products td =>
       logger_info "-- tile %s" [VStr td.1] ;;;
       for_each td.2 (query_tiles_dates_step query_kwargs lk td.1) products).
Proof.
  intros Hn acc td w Hgood Hd Hup. cbn zeta.
  destruct (for_each_answered _ _ _ _ _
              (query_tiles_dates_step_answered query_kwargs d lk td.1 Hn)
              td.2 acc w Hgood Hd Hup) as (Hd' & Hup' & (evss & HP & Hev) & Hout).
  rewrite (bind_ok _ _ _ _ _ _ eq_refl). cbn beta. cbn [outcome final emitted].
  rewrite Hout.
  split; [exact Hd'|]. split; [exact Hup'|].
  change ([EvLog INFO "-- tile %s" [VStr td.1]] ++ ?evs)
    with (EvLog INFO "-- tile %s" [VStr td.1] :: evs).
  change (queried (EvLog INFO "-- tile %s" [VStr td.1] :: ?evs)) with (queried evs).
  change (sleeps (EvLog INFO "-- tile %s" [VStr td.1] :: ?evs)) with (sleeps evs).
  change (successes (EvLog INFO "-- tile %s" [VStr td.1] :: ?evs)) with (successes evs).
  split; [|reflexivity]. rewrite Hev.
  apply (one_query_each
           (fun date kw => exists s e, usable_date date s e /\
                                       kw = tile_params d td.1 s e)).
  eapply Forall2_impl; [exact HP|].
  intros date evs (s & e & pp & Huse & ->). split; [|split; reflexivity].
  exists (tile_params d td.1 s e). split; [eauto | reflexivity].
Qed.

(** X8.  Against a hub that answers and with [max_retries >= 1],
    [query_tiles_dates] on dates that parse to a naive datetime (one
    without a time zone) on or after 2016-11-01 and have a next day calls
    [api.query] once per (tile, date) pair, tile by tile in
    the order of the mapping and date by date in the order of each list,
    with the date range and the tile filter of the pair; it never sleeps,
    and returns the merge of the answers. *)
Theorem query_tiles_dates_answered
    (query_kwargs : loc) (d : kwargs) (lk : loop_kwargs)
    (tiles_dates : odict (list string)) (w : world) :
  1 <= attempts lk ->
  heap w !! query_kwargs = Some d ->
  always_up (hub w) ->
  Forall (fun td : string * list string =>
            Forall (fun date => exists s e,
                        usable_date date s e /\
                        tzinfo s = None /\
                        naive_ltb (fields s) (datetime_ymd 2016 11 1) = false) td.2)
         tiles_dates ->
  let r := query_tiles_dates tiles_dates query_kwargs lk w in
  Forall2 (fun (p : string * string) kw =>
             exists s e, usable_date p.2 s e /\ kw = tile_params d p.1 s e)
    (tile_date_pairs tiles_dates) (queried (emitted r)) /\
  sleeps (emitted r) = [] /\
  length (successes (emitted r)) = length (tile_date_pairs tiles_dates) /\
  outcome r = Ok (merge_all [] (successes (emitted r))).
Proof.
  intros Hn Hd Hup Hnaive_late.
  assert (Hgood : Forall (fun td : string * list string =>
            Forall (fun date => exists s e, usable_date date s e /\
                        datetime_lt s (datetime_ymd 2016 11 1) = Ok false) td.2)
         tiles_dates).
  { eapply Forall_impl; [exact Hnaive_late|]. intros td Htd.
    eapply Forall_impl; [exact Htd|]. intros date (s & e & Huse & Htz & Hlate).
    exists s, e. split; [exact Huse|].
    unfold datetime_lt. rewrite Htz, Hlate. reflexivity. }
  clear Hnaive_late.
  cbn zeta. unfold query_tiles_dates.
  destruct (for_each_answered _ _ _ _ _
              (query_tiles_dates_tile_answered query_kwargs d lk Hn)
              tiles_dates [] w Hgood Hd Hup) as (_ & _ & (evss & HP & Hev) & Hout).
  split; [|split; [|split; [|exact Hout]]]; rewrite Hev; clear Hev Hout Hgood.
  - induction HP as [|td evs tds evss (HQ & _ & _) _ IH]; [constructor|].
    rewrite concat_cons. rewrite queried_app.
    change (tile_date_pairs (td :: tds))
      with ((pair td.1 <$> td.2) ++ tile_date_pairs tds).
    apply Forall2_app; [|exact IH]. apply Forall2_fmap_l. exact HQ.
  - induction HP as [|td evs tds evss (_ & Hs & _) _ IH]; [reflexivity|].
    rewrite concat_cons. rewrite sleeps_app, Hs, IH. reflexivity.
  - induction HP as [|td evs tds evss (_ & _ & Hl) _ IH]; [reflexivity|].
    rewrite concat_cons.
    change (tile_date_pairs (td :: tds))
      with ((pair td.1 <$> td.2) ++ tile_date_pairs tds).
    rewrite successes_app, !length_app, length_fmap, Hl, IH. reflexivity.
Qed.

End AnsweredAggregators.

Section FailFast.
Context `{Ext : Externals}.

(** ** Iterations that raise before any call *)

Lemma query_dates_step_unusable (query_kwargs : loc) (d : kwargs) (lk : loop_kwargs)
    (date : string) (e : exn) (products : product_map) (w : world) :
  heap w !! query_kwargs = Some d ->
  dateutil_parse date = Raise e \/
  (exists s, dateutil_parse date = Ok s /\ add_one_day s = Raise e) ->
  exists w', query_dates_step query_kwargs lk products date w = Run (Raise e) w' [].
Proof.
  intros Hd Hbad. unfold query_dates_step.
  rewrite (bind_ok_silent _ _ _ _ _ (dict_copy_run _ _ _ Hd)).
  set (kw := fresh (dom (heap w))).
  pose proof (set_date_run kw d date (with_heap w (<[kw := d]> (heap w)))
                (lookup_insert_eq _ _ _)) as Hset.
  eexists.
  destruct Hbad as [Hparse|(s & Hparse & Hend)].
  - rewrite Hparse in Hset. exact (bind_raise _ _ _ _ _ _ Hset).
  - rewrite Hparse, Hend in Hset. exact (bind_raise _ _ _ _ _ _ Hset).
Qed.

(** X9.  A date string that does not parse, or whose next day is past the
    last datetime, ends [query_dates] with the error of the parser or the
    [OverflowError] of the addition: when the dates before it were
    processed, the call raises that error, its events are those of the
    dates before (no call of [api.query] for that date or a later one),
    and the products gathered so far are not returned. *)
Theorem query_dates_stops_at_unusable_date
    (query_kwargs : loc) (d : kwargs) (lk : loop_kwargs) (w : world)
    (before after : list string) (date : string) (e : exn) (acc : product_map) :
  heap w !! query_kwargs = Some d ->
  dateutil_parse date = Raise e \/
  (exists s, dateutil_parse date = Ok s /\ add_one_day s = Raise e) ->
  outcome (query_dates before query_kwargs lk w) = Ok acc ->
  let r := query_dates (before ++ date :: after) query_kwargs lk w in
  outcome r = Raise e /\
  emitted r = emitted (query_dates before query_kwargs lk w).
Proof.
  intros Hd Hbad Hreached. cbn zeta. unfold query_dates in *.
  destruct (for_each_iteration_ok _ _ _ _
              (query_dates_step_ok query_kwargs d lk) before [] w Hd) as (Hd0 & _ & _).
  destruct (for_each before (query_dates_step query_kwargs lk) [] w)
    as [[s0|e0] w0 evs0] eqn:Hbefore; cbn [outcome final emitted] in *;
    [|discriminate].
  destruct (query_dates_step_unusable query_kwargs d lk date e s0 w0 Hd0 Hbad)
    as [w' Hstep].
  pose proof (for_each_raises_at before after date _ [] s0 w w0 w' evs0 [] e
                Hbefore Hstep) as Hrun.
  split; [exact (f_equal outcome Hrun)|].
  exact (eq_trans (f_equal emitted Hrun) (app_nil_r evs0)).
Qed.



(** ** Aggregators that get no attempt *)


End FailFast.

(** ** Keys of the merged products *)

Lemma first_seen_NoDup (ks : list string) : NoDup (first_seen ks).
Proof.
  induction ks as [|k ks IH]; simpl; [constructor|].
  apply NoDup_cons. split.
  - rewrite list_elem_of_filter. intros [Hne _]. exact (Hne eq_refl).
  - apply NoDup_filter, IH.
Qed.

Lemma filter_not_in_nil (l : list string) : filter (fun k => k ∉ @nil string) l = l.
Proof.
  induction l as [|k l IH]; [reflexivity|].
  rewrite filter_cons_True by apply not_elem_of_nil. f_equal. exact IH.
Qed.

Lemma od_keys_merge_all_nil {V} (pps : list (odict V)) :
  od_keys (merge_all [] pps) = first_seen (concat (od_keys <$> pps)).
Proof.
  rewrite merge_all_concat, od_keys_update, od_keys_concat. simpl.
  apply filter_not_in_nil.
Qed.

Section MergedKeys.
Context `{Ext : Externals}.

(** What holds of the products a run returned. *)
Lemma merged_keys (r : run product_map) :
  (forall p, outcome r = Ok p -> p = merge_all [] (successes (emitted r))) ->
  match outcome r with
  | Ok p => NoDup (od_keys p) /\
            od_keys p = first_seen (concat (od_keys <$> successes (emitted r)))
  | Raise _ => True
  end.
Proof.
  intros Hmerge. destruct (outcome r) as [p|e]; [|exact I].
  rewrite (Hmerge p eq_refl), od_keys_merge_all_nil.
  split; [apply first_seen_NoDup | reflexivity].
Qed.

(** X12.  The collection an aggregator returns has each product
    identifier once, and the identifiers are in the order in which the
    answers of [api.query] first gave them. *)
Theorem aggregators_return_distinct_keys
    (query_kwargs : loc) (d : kwargs) (lk : loop_kwargs) (w : world)
    (tiles_dates : odict (list string)) (dates : list string)
    (rel_orbit_numbers : list Z) :
  heap w !! query_kwargs = Some d ->
  (let r := query_tiles_dates tiles_dates query_kwargs lk w in
   match outcome r with
   | Ok p => NoDup (od_keys p) /\
             od_keys p = first_seen (concat (od_keys <$> successes (emitted r)))
   | Raise _ => True
   end) /\
  (let r := query_dates dates query_kwargs lk w in
   match outcome r with
   | Ok p => NoDup (od_keys p) /\
             od_keys p = first_seen (concat (od_keys <$> successes (emitted r)))
   | Raise _ => True
   end) /\
  (let r := query_rel_orbit_numbers rel_orbit_numbers query_kwargs lk w in
   match outcome r with
   | Ok p => NoDup (od_keys p) /\
             od_keys p = first_seen (concat (od_keys <$> successes (emitted r)))
   | Raise _ => True
   end).
Proof.
  intros Hd.
  destruct (aggregators_return_merge query_kwargs d lk w tiles_dates dates
              rel_orbit_numbers Hd) as (H1 & H2 & H3).
  split; [|split]; cbn zeta; apply merged_keys; assumption.
Qed.

(** ** An aggregator against a hub that is down *)

(** X13.  When the hub raises the recoverable error on every call,
    [query_rel_orbit_numbers] with [max_retries >= 1] and a timeout that
    is not zero raises that error at its first orbit number, after
    [max_retries] calls that all carry the parameters of that number: the
    other orbit numbers are never queried and nothing is returned. *)
Theorem query_rel_orbit_numbers_aborts_when_down
    (query_kwargs : loc) (d : kwargs) (lk : loop_kwargs)
    (ron : Z) (rons : list Z) (w : world) :
  1 <= attempts lk ->
  truthy (pause lk) = true ->
  heap w !! query_kwargs = Some d ->
  always_down (hub w) ->
  let r := query_rel_orbit_numbers (ron :: rons) query_kwargs lk w in
  (exists e, is_SentinelAPIError e = true /\ outcome r = Raise e) /\
  queried (emitted r) = replicate (Z.to_nat (attempts lk)) (orbit_params d ron).
Proof.
  intros Hn Ht Hd Hdown. cbn zeta.
  unfold query_rel_orbit_numbers. simpl for_each.
  unfold query_rel_orbit_numbers_step.
  set (kw := fresh (dom (heap w))).
  set (w2 := World (<[kw := orbit_params d ron]> (heap w)) (hub w) (disk w)).
  destruct (loop_query_from_exhausts (Z.to_nat (attempts lk)) kw (orbit_params d ron)
              (pause lk) Ht None w2 (lookup_insert_eq _ _ _) Hdown)
    as (es & Hlen & Hall & _ & Hkws & _ & _ & Hout).
  cbn zeta in *.
  destruct (last es) as [e|] eqn:Hlast.
  2:{ apply last_None in Hlast. subst es. simpl in Hlen. lia. }
  simpl in Hout.
  assert (Hrun : loop_query_with kw lk w2 =
                 Run (Raise e) (final (loop_query_with kw lk w2))
                     (emitted (loop_query_with kw lk w2))).
  { rewrite (run_eta (loop_query_with kw lk w2)) at 1.
    unfold loop_query_with, loop_query. fold (attempts lk) (pause lk).
    rewrite Hout. reflexivity. }
  assert (Hstep :
    (kw0 <- dict_copy query_kwargs ;;
     dict_setitem kw0 "relativeorbitnumber" (VStr (pretty ron)) ;;;
     pp <- loop_query_with kw0 lk ;; products_update [] pp) w =
    Run (Raise e) (final (loop_query_with kw lk w2)) (emitted (loop_query_with kw lk w2))).
  { rewrite (bind_ok_silent _ _ _ _ _ (dict_copy_run _ _ _ Hd)). fold kw.
    erewrite bind_ok_silent by (apply (dict_setitem_run kw d); apply lookup_insert_eq).
    unfold with_heap. cbn [heap hub disk]. rewrite insert_insert_eq.
    exact (bind_raise _ _ _ _ _ _ Hrun). }
  rewrite (bind_raise _ _ _ _ _ _ Hstep). cbn [outcome emitted].
  split.
  - exists e. split; [|reflexivity].
    rewrite Forall_forall in Hall. apply Hall, last_Some_elem_of, Hlast.
  - exact Hkws.
Qed.

End MergedKeys.

(** ** More on delete_empty *)

Lemma no_removal_no_failure (evs : list event) :
  removals evs = [] -> failed_removals evs = [].
Proof.
  induction evs as [|e evs IH]; [reflexivity|].
  destruct e as [| | | |p [msg|]]; simpl; try exact IH; discriminate.
Qed.

Section CleanupFurther.
Context `{Ext : Externals}.

(** One entry: what else the step leaves alone. *)
Lemma delete_empty_step_frame (item : string * metadata) (w : world) :
  let r := delete_empty_step tt item w in
  heap (final r) = heap w /\ hub (final r) = hub w /\
  queries (emitted r) = [] /\ sleeps (emitted r) = [] /\
  (seen_empty (emitted r) = [] -> disk (final r) = disk w) /\
  (Some <$> inspections (emitted r)) `prefix_of` [item.2 !! "path"] /\
  (outcome r = Ok tt -> Some <$> inspections (emitted r) = [item.2 !! "path"]).
Proof.
  cbn zeta. unfold delete_empty_step, getitem.
  destruct (item.2 !! "path") as [p|] eqn:Hpath.
  2:{ rewrite (bind_raise _ _ _ _ _ _ eq_refl). cbn.
      repeat split; try reflexivity; [apply prefix_nil | discriminate]. }
  rewrite (bind_ok_silent _ _ _ _ _ eq_refl).
  unfold bind, getsize. cbn [outcome final emitted].
  destruct (os_path_getsize (disk w) p) as [n|e] eqn:Hsize; cbn [outcome final emitted].
  2:{ repeat split; try reflexivity; discriminate. }
  destruct (Z.eqb_spec n 0) as [->|Hn].
  - unfold try_except, remove. cbn [outcome final emitted].
    destruct (os_remove (disk w) p) as [dk [msg|]];
      cbn [fst snd outcome final emitted is_OSError];
      repeat split; try reflexivity; discriminate.
  - cbn [ret outcome final emitted]. repeat split; reflexivity.
Qed.

Lemma delete_empty_frame (results : product_map) (w : world) :
  let r := delete_empty results w in
  heap (final r) = heap w /\ hub (final r) = hub w /\
  queries (emitted r) = [] /\ sleeps (emitted r) = [] /\
  (seen_empty (emitted r) = [] -> disk (final r) = disk w) /\
  (Some <$> inspections (emitted r)) `prefix_of`
    ((fun item => item.2 !! "path") <$> results) /\
  cleanup_events (emitted r).
Proof.
  cbn zeta. unfold delete_empty. revert w.
  induction results as [|item results IH]; intros w.
  - simpl. repeat split; try reflexivity.
  - simpl for_each.
    destruct (delete_empty_step_frame item w) as (H1 & H2 & H3 & H4 & H5 & H6 & H7).
    destruct (delete_empty_step_run item w) as (Hev & _ & _).
    cbn zeta in *.
    destruct (delete_empty_step tt item w) as [[[]|e] w1 evs1] eqn:Hstep;
      cbn [outcome final emitted] in *.
    + rewrite (bind_ok _ _ _ _ _ _ Hstep). cbn [outcome final emitted].
      destruct (IH w1) as (I1 & I2 & I3 & I4 & I5 & I6 & I7).
      unfold inspections, seen_empty in *.
      rewrite queries_app, sleeps_app, !omap_app, fmap_app, H3, H4, I3, I4, I1, I2.
      split; [exact H1|]. split; [exact H2|]. split; [reflexivity|].
      split; [reflexivity|]. split; [|split].
      * intros Hnil. apply app_eq_nil in Hnil as [Ha Hb].
        rewrite (I5 Hb). exact (H5 Ha).
      * rewrite (H7 eq_refl). rewrite fmap_cons.
        apply (prefix_app [item.2 !! "path"]). exact I6.
      * apply cleanup_events_app; assumption.
    + rewrite (bind_raise _ _ _ _ _ _ Hstep). cbn [outcome final emitted].
      split; [exact H1|]. split; [exact H2|]. split; [exact H3|].
      split; [exact H4|]. split; [exact H5|]. split; [|exact Hev].
      rewrite fmap_cons. eapply prefix_app_r in H6. exact H6.
Qed.

(** X14.  [delete_empty] reads the sizes in the order of the entries,
    each entry at most once and none after an entry it stopped at; it
    calls nothing of the hub, never sleeps, and leaves the dict objects
    and the hub as they were. *)
Theorem delete_empty_inspects_in_order (results : product_map) (w : world) :
  let r := delete_empty results w in
  (Some <$> inspections (emitted r)) `prefix_of`
    ((fun item => item.2 !! "path") <$> results) /\
  heap (final r) = heap w /\
  hub (final r) = hub w /\
  queries (emitted r) = [] /\
  sleeps (emitted r) = [].
Proof.
  cbn zeta.
  destruct (delete_empty_frame results w) as (H1 & H2 & H3 & H4 & _ & H6 & _).
  auto.
Qed.

(** X15.  When no size read by [delete_empty] is zero, the run removes
    nothing: [os.remove] is not called, no warning is logged and the file
    system is left as it was. *)
Theorem delete_empty_keeps_files_with_content (results : product_map) (w : world) :
  seen_empty (emitted (delete_empty results w)) = [] ->
  let r := delete_empty results w in
  disk (final r) = disk w /\
  removals (emitted r) = [] /\
  warnings (emitted r) = [].
Proof.
  intros Hnone. cbn zeta.
  destruct (delete_empty_frame results w) as (_ & _ & _ & _ & H5 & _ & [Hrm Hwarn]).
  split; [exact (H5 Hnone)|].
  rewrite Hnone in Hrm. split; [exact Hrm|].
  rewrite Hwarn, (no_removal_no_failure _ Hrm). reflexivity.
Qed.

End CleanupFurther.

(** ** Merging the same collection again *)

Section MergingAgain.
Context {V : Type}.
Implicit Types (d acc pp items : odict V) (k : string) (v : V).

Lemma od_set_same k v d : od_lookup k d = Some v -> od_set k v d = d.
Proof.
  induction d as [|[k' v'] d IH]; simpl; [discriminate|].
  destruct (String.eqb_spec k k') as [->|Hne].
  - intros [= ->]. reflexivity.
  - intros Hl. f_equal. exact (IH Hl).
Qed.

Lemma od_update_absorbs d items :
  (forall k v, (k, v) ∈ items -> od_lookup k d = Some v) -> od_update d items = d.
Proof.
  induction items as [|[k v] items IH]; intros Hall; [reflexivity|].
  rewrite od_update_cons, (od_set_same k v d) by (apply Hall; left).
  apply IH. intros k' v' Hin. apply Hall. right. exact Hin.
Qed.

Lemma od_lookup_missing k d : k ∉ od_keys d -> od_lookup k d = None.
Proof.
  induction d as [|[k' v'] d IH]; simpl; intros Hnin; [reflexivity|].
  destruct (String.eqb_spec k k') as [->|Hne].
  - exfalso. apply Hnin. left.
  - apply IH. intros Hin. apply Hnin. right. exact Hin.
Qed.

Lemma od_lookup_reverse_NoDup k v items :
  NoDup (od_keys items) -> (k, v) ∈ items -> od_lookup k (reverse items) = Some v.
Proof.
  induction items as [|[k0 v0] items IH]; intros Hnd Hin; [inversion Hin|].
  simpl in Hnd. apply NoDup_cons in Hnd as [Hk0 Hnd].
  rewrite reverse_cons, od_lookup_app.
  apply elem_of_cons in Hin as [[= -> ->]|Hin].
  - rewrite od_lookup_missing.
    + simpl. rewrite String.eqb_refl. reflexivity.
    + unfold od_keys. rewrite fmap_reverse, elem_of_reverse. exact Hk0.
  - rewrite (IH Hnd Hin). reflexivity.
Qed.

End MergingAgain.

(** X16.  Merging a result collection that has each key once into an
    accumulator that already holds it changes nothing: an answer that
    comes twice leaves the products as the first merge made them. *)
Theorem merge_same_collection_again (acc pp : product_map) :
  NoDup (od_keys pp) ->
  merge_all acc [pp; pp] = merge_all acc [pp].
Proof.
  intros Hnd. unfold merge_all. simpl.
  apply od_update_absorbs. intros k v Hin.
  rewrite od_lookup_update, (od_lookup_reverse_NoDup k v pp Hnd Hin). reflexivity.
Qed.

(** ** Runs on the scripted environment, continued *)

Lemma hub_up_always_up (pp : product_map) : @always_up scripted (hub_up pp).
Proof.
  exists (fun h => h = hub_up pp). split; [reflexivity|].
  intros h' kw ->. split; [exists pp|]; reflexivity.
Qed.

(** Two failures, then the answer, with a timeout of one minute. *)
Lemma loop_query_retries_until_answer_witness :
  let r := @loop_query scripted 0%nat 5 (Some 1)
             (demo_world (hub_recovers [("A", meta "a.zip")]) ∅) in
  outcome r = Ok (Some [("A", meta "a.zip")]) /\
  (exists es, length es = 2%nat /\
              emitted r = concat (failed_attempt base_params (Some 1) <$> es)
                            ++ [EvQuery base_params (Ok [("A", meta "a.zip")])]) /\
  length (queries (emitted r)) = 3%nat /\
  total_sleep (emitted r) = Z.of_nat 2 * (60 * Z.max 0 1).
Proof.
  apply (@loop_query_retries_until_answer scripted 0%nat base_params
           [("A", meta "a.zip")] 5 1 2%nat
           (demo_world (hub_recovers [("A", meta "a.zip")]) ∅)).
  - lia.
  - lia.
  - reflexivity.
  - repeat split.
Defined.

Lemma loop_query_waits_after_last_attempt_witness :
  let r := @loop_query scripted 0%nat 3 (Some 5) (demo_world hub_down ∅) in
  (exists es, Z.of_nat (length es) = 3 /\
              emitted r = concat (failed_attempt base_params (Some 5) <$> es)) /\
  last (emitted r) = Some (EvSleep 10) /\
  total_sleep (emitted r) = 3 * (60 * 5).
Proof.
  apply (@loop_query_waits_after_last_attempt scripted 0%nat base_params 3 5
           (demo_world hub_down ∅)).
  - lia.
  - lia.
  - reflexivity.
  - exact hub_down_always_down.
Defined.

Lemma query_rel_orbit_numbers_answered_witness :
  let r := @query_rel_orbit_numbers scripted [8; 51] 0%nat no_loop_kwargs
             (demo_world (hub_up [("A", meta "a.zip")]) ∅) in
  queried (emitted r) = orbit_params base_params <$> [8; 51] /\
  emitted r = queries (emitted r) /\
  length (successes (emitted r)) = length [8; 51] /\
  outcome r = Ok (merge_all [] (successes (emitted r))).
Proof.
  apply (@query_rel_orbit_numbers_answered scripted 0%nat base_params no_loop_kwargs
           [8; 51] (demo_world (hub_up [("A", meta "a.zip")]) ∅)).
  - unfold attempts. simpl. lia.
  - reflexivity.
  - apply hub_up_always_up.
Defined.

Lemma usable_2017_01_15 :
  @usable_date scripted "2017-01-15" (DateTime (datetime_ymd 2017 1 15) None)
    (DateTime (datetime_ymd 2017 1 16) None).
Proof. split; reflexivity. Qed.

Lemma usable_2017_06_01 :
  @usable_date scripted "2017-06-01" (DateTime (datetime_ymd 2017 6 1) None)
    (DateTime (datetime_ymd 2017 6 2) None).
Proof. split; reflexivity. Qed.

Lemma query_dates_answered_witness :
  let r := @query_dates scripted ["2017-01-15"; "2017-06-01"] 0%nat no_loop_kwargs
             (demo_world (hub_up [("A", meta "a.zip")]) ∅) in
  Forall2 (fun date kw => exists s e, @usable_date scripted date s e /\
                                      kw = date_params base_params s e)
    ["2017-01-15"; "2017-06-01"] (queried (emitted r)) /\
  sleeps (emitted r) = [] /\
  length (successes (emitted r)) = length ["2017-01-15"; "2017-06-01"] /\
  outcome r = Ok (merge_all [] (successes (emitted r))).
Proof.
  apply (@query_dates_answered scripted 0%nat base_params no_loop_kwargs
           ["2017-01-15"; "2017-06-01"] (demo_world (hub_up [("A", meta "a.zip")]) ∅)).
  - unfold attempts. simpl. lia.
  - reflexivity.
  - apply hub_up_always_up.
  - repeat constructor.
    + eexists _, _. exact usable_2017_01_15.
    + eexists _, _. exact usable_2017_06_01.
Defined.

Lemma query_tiles_dates_answered_witness :
  let tiles_dates := [("31TCJ", ["2017-01-15"; "2017-06-01"]); ("32UNA", ["2017-06-01"])] in
  let r := @query_tiles_dates scripted tiles_dates 0%nat no_loop_kwargs
             (demo_world (hub_up [("A", meta "a.zip")]) ∅) in
  Forall2 (fun (p : string * string) kw =>
             exists s e, @usable_date scripted p.2 s e /\
                         kw = tile_params base_params p.1 s e)
    (tile_date_pairs tiles_dates) (queried (emitted r)) /\
  sleeps (emitted r) = [] /\
  length (successes (emitted r)) = length (tile_date_pairs tiles_dates) /\
  outcome r = Ok (merge_all [] (successes (emitted r))).
Proof.
  apply (@query_tiles_dates_answered scripted 0%nat base_params no_loop_kwargs
           [("31TCJ", ["2017-01-15"; "2017-06-01"]); ("32UNA", ["2017-06-01"])]
           (demo_world (hub_up [("A", meta "a.zip")]) ∅)).
  - unfold attempts. simpl. lia.
  - reflexivity.
  - apply hub_up_always_up.
  - repeat constructor.
    + eexists _, _. split; [exact usable_2017_01_15 | split; reflexivity].
    + eexists _, _. split; [exact usable_2017_06_01 | split; reflexivity].
    + eexists _, _. split; [exact usable_2017_06_01 | split; reflexivity].
Defined.

(** A string that is no date, after a date that is one. *)
Lemma query_dates_stops_at_unusable_date_witness :
  let w := demo_world (hub_up [("A", meta "a.zip")]) ∅ in
  let r := @query_dates scripted (["2017-01-15"] ++ "next week" :: ["2017-06-01"])
             0%nat no_loop_kwargs w in
  outcome r = Raise (ValueError "Unknown string format: next week") /\
  emitted r = emitted (@query_dates scripted ["2017-01-15"] 0%nat no_loop_kwargs w).
Proof.
  apply (@query_dates_stops_at_unusable_date scripted 0%nat base_params no_loop_kwargs
           (demo_world (hub_up [("A", meta "a.zip")]) ∅) ["2017-01-15"] ["2017-06-01"]
           "next week" (ValueError "Unknown string format: next week")
           [("A", meta "a.zip")]).
  - reflexivity.
  - left. reflexivity.
  - vm_compute. reflexivity.
Defined.



Lemma aggregators_return_distinct_keys_witness :
  let w := demo_world (hub_up [("A", meta "a.zip")]) ∅ in
  outcome (@query_rel_orbit_numbers scripted [8; 51] 0%nat no_loop_kwargs w)
    = Ok [("A", meta "a.zip")] /\
  (let r := @query_rel_orbit_numbers scripted [8; 51] 0%nat no_loop_kwargs w in
   match outcome r with
   | Ok p => NoDup (od_keys p) /\
             od_keys p = first_seen (concat (od_keys <$> successes (emitted r)))
   | Raise _ => True
   end).
Proof.
  split; [vm_compute; reflexivity|].
  apply (@aggregators_return_distinct_keys scripted 0%nat base_params no_loop_kwargs
           (demo_world (hub_up [("A", meta "a.zip")]) ∅) [] [] [8; 51]).
  reflexivity.
Defined.

Lemma query_rel_orbit_numbers_aborts_when_down_witness :
  let r := @query_rel_orbit_numbers scripted (8 :: [51]) 0%nat no_loop_kwargs
             (demo_world hub_down ∅) in
  (exists e, is_SentinelAPIError e = true /\ outcome r = Raise e) /\
  queried (emitted r) = replicate (Z.to_nat (attempts no_loop_kwargs))
                          (orbit_params base_params 8).
Proof.
  apply (@query_rel_orbit_numbers_aborts_when_down scripted 0%nat base_params
           no_loop_kwargs 8 [51] (demo_world hub_down ∅)).
  - unfold attempts. simpl. lia.
  - reflexivity.
  - reflexivity.
  - exact hub_down_always_down.
Defined.

Lemma delete_empty_keeps_files_with_content_witness :
  let r := @delete_empty scripted [("B", meta "full.zip")]
             (demo_world hub_down downloads) in
  disk (final r) = downloads /\
  removals (emitted r) = [] /\
  warnings (emitted r) = [].
Proof.
  apply (@delete_empty_keeps_files_with_content scripted [("B", meta "full.zip")]
           (demo_world hub_down downloads)).
  vm_compute. reflexivity.
Defined.

Lemma merge_same_collection_again_witness :
  merge_all [("A", meta "old.zip")] [[("A", meta "a.zip"); ("B", meta "b.zip")];
                                      [("A", meta "a.zip"); ("B", meta "b.zip")]]
  = merge_all [("A", meta "old.zip")] [[("A", meta "a.zip"); ("B", meta "b.zip")]].
Proof.
  apply (merge_same_collection_again [("A", meta "old.zip")]
           [("A", meta "a.zip"); ("B", meta "b.zip")]).
  apply (bool_decide_unpack _). vm_compute. exact I.
Defined.

(** ** What the aggregators return *)

Lemma merge_all_merged_in_order (pps : list product_map) :
  merged_in_order pps (merge_all [] pps).
Proof.
  split; [reflexivity|]. split; [apply od_keys_merge_all_nil|]. split.
  - intros n i k Hi.
    rewrite <- (take_drop n pps) at 1. rewrite merge_all_app, merge_all_concat.
    rewrite od_keys_update. apply lookup_app_l_Some, Hi.
  - intros k. rewrite merge_all_concat, od_lookup_update.
    destruct (od_lookup k (reverse (concat pps))); reflexivity.
Qed.

Section ReturnedProducts.
Context `{Ext : Externals}.

Lemma returns_merged_intro (r : run product_map) :
  (forall p, outcome r = Ok p -> p = merge_all [] (successes (emitted r))) ->
  returns_merged r.
Proof.
  intros Hmerge. unfold returns_merged.
  destruct (outcome r) as [p|e]; [|exact I].
  rewrite (Hmerge p eq_refl). apply merge_all_merged_in_order.
Qed.

(** C5.  What [query_tiles_dates], [query_dates] and
    [query_rel_orbit_numbers] return is the merge, by [products.update],
    of the answers of their successful calls of [api.query] in call order:
    the keys are in the order in which the answers first gave them, a
    later answer with a key already there leaves the key at the position
    it had after every earlier merge, and the value of a key is the one of
    the last answer that has it. *)
Theorem aggregators_merge_in_insertion_order
    (query_kwargs : loc) (d : kwargs) (lk : loop_kwargs) (w : world)
    (tiles_dates : odict (list string)) (dates : list string)
    (rel_orbit_numbers : list Z) :
  heap w !! query_kwargs = Some d ->
  returns_merged (query_tiles_dates tiles_dates query_kwargs lk w) /\
  returns_merged (query_dates dates query_kwargs lk w) /\
  returns_merged (query_rel_orbit_numbers rel_orbit_numbers query_kwargs lk w).
Proof.
  intros Hd.
  destruct (aggregators_return_merge query_kwargs d lk w tiles_dates dates
              rel_orbit_numbers Hd) as (H1 & H2 & H3).
  split; [|split]; apply returns_merged_intro; assumption.
Qed.

End ReturnedProducts.

(** The example of the specification run through the three aggregators:
    the hub answers [{A: x}], then [{A: y, B: z}], and each aggregator
    returns [{A: y, B: z}] with [A] first. *)
Lemma aggregators_merge_in_insertion_order_witness :
  let w := demo_world hub_two_answers ∅ in
  let x := meta "x.zip" in
  let y := meta "y.zip" in
  let z := meta "z.zip" in
  let tiles := @query_tiles_dates scripted [("31TCJ", ["2017-01-15"; "2017-06-01"])]
                 0%nat no_loop_kwargs w in
  let days := @query_dates scripted ["2017-01-15"; "2017-06-01"] 0%nat no_loop_kwargs w in
  let orbits := @query_rel_orbit_numbers scripted [8; 51] 0%nat no_loop_kwargs w in
  (outcome tiles = Ok [("A", y); ("B", z)] /\
   successes (emitted tiles) = [[("A", x)]; [("A", y); ("B", z)]] /\
   merged_in_order (successes (emitted tiles)) [("A", y); ("B", z)]) /\
  (outcome days = Ok [("A", y); ("B", z)] /\
   successes (emitted days) = [[("A", x)]; [("A", y); ("B", z)]] /\
   merged_in_order (successes (emitted days)) [("A", y); ("B", z)]) /\
  (outcome orbits = Ok [("A", y); ("B", z)] /\
   successes (emitted orbits) = [[("A", x)]; [("A", y); ("B", z)]] /\
   merged_in_order (successes (emitted orbits)) [("A", y); ("B", z)]).
Proof.
  cbn zeta.
  destruct (@aggregators_merge_in_insertion_order scripted 0%nat base_params
              no_loop_kwargs (demo_world hub_two_answers ∅)
              [("31TCJ", ["2017-01-15"; "2017-06-01"])] ["2017-01-15"; "2017-06-01"]
              [8; 51] eq_refl) as (Htiles & Hdays & Horbits).
  assert (Ot : outcome (@query_tiles_dates scripted
                          [("31TCJ", ["2017-01-15"; "2017-06-01"])] 0%nat no_loop_kwargs
                          (demo_world hub_two_answers ∅))
               = Ok [("A", meta "y.zip"); ("B", meta "z.zip")])
    by (vm_compute; reflexivity).
  assert (Od : outcome (@query_dates scripted ["2017-01-15"; "2017-06-01"] 0%nat
                          no_loop_kwargs (demo_world hub_two_answers ∅))
               = Ok [("A", meta "y.zip"); ("B", meta "z.zip")])
    by (vm_compute; reflexivity).
  assert (Oo : outcome (@query_rel_orbit_numbers scripted [8; 51] 0%nat
                          no_loop_kwargs (demo_world hub_two_answers ∅))
               = Ok [("A", meta "y.zip"); ("B", meta "z.zip")])
    by (vm_compute; reflexivity).
  unfold returns_merged in Htiles, Hdays, Horbits.
  rewrite Ot in Htiles. rewrite Od in Hdays. rewrite Oo in Horbits.
  split; [|split].
  - split; [exact Ot|]. split; [vm_compute; reflexivity | exact Htiles].
  - split; [exact Od|]. split; [vm_compute; reflexivity | exact Hdays].
  - split; [exact Oo|]. split; [vm_compute; reflexivity | exact Horbits].
Defined.

